(** * Static analysis of a React component: the hardened [analyzeComponent]

    A shallow embedding of [src/utils/analyzeComponent.ts] (the second,
    hardened variant of the file: [guessRole], [literalToString],
    [getJsxProps], [unwrapDefaultExport], [isInsideComponent] and
    [analyzeComponent]) together with the part of Babel's traversal API
    the analyzer calls: [traverse], [path.findParent],
    [path.getFunctionParent] and [path.parentPath].  The analysis is
    first a fold of the visitors over the paths of the tree; [Heap]
    puts its accumulators on an explicit heap, and [Babel] adds the
    errors that the library raises on its own. *)

From Stdlib Require Import Bool List Ascii String Arith Lia.
Import ListNotations.
Local Open Scope string_scope.
Local Open Scope list_scope.

(** ** Syntax trees

    One constructor per Babel node type the analyzer inspects, with the
    fields it reads under their Babel names.  Fields that hold only type
    annotations, decorators or directives are left out, as is the closing
    tag of a JSX element: the trees of the model are those of files in
    which no call, declarator, function or markup lies below such a
    field (a call in a computed key of a type annotation is out of the
    model).  [ClassMethod] stands for [ClassPrivateMethod] as well.  Every
    remaining node type, none of which is a function for [t.isFunction]
    or has a [value] field, is an [Other] node that keeps its children
    in visiting order.  A numeric literal carries the text that
    [String(value)] yields, the only thing the analyzer does with it. *)

Scheme All for list.
Scheme All for option.

Inductive node : Type :=
| File (program : node)
| Program (body : list node)
| ExportDefaultDeclaration (declaration : node)
| FunctionDeclaration (id : option node) (params : list node) (body : node)
| FunctionExpression (id : option node) (params : list node) (body : node)
| ArrowFunctionExpression (params : list node) (body : node)
| ObjectMethod (key : node) (params : list node) (body : node)
| ClassMethod (key : node) (params : list node) (body : node)
| VariableDeclaration (declarations : list node)
| VariableDeclarator (id : node) (init : option node)
| BlockStatement (body : list node)
| ExpressionStatement (expression : node)
| ReturnStatement (argument : option node)
| IfStatement (test consequent : node) (alternate : option node)
| Identifier (name : string)
| StringLiteral (value : string)
| NumericLiteral (value : string)
| BooleanLiteral (value : bool)
| BigIntLiteral (value : string)
| NullLiteral
| RegExpLiteral (pattern flags : string)
| TemplateLiteral (quasis expressions : list node)
| ArrayPattern (elements : list (option node))
| ObjectPattern (properties : list node)
| ObjectProperty (key value : node) (computed : bool)
| RestElement (argument : node)
| ArrayExpression (elements : list (option node))
| MemberExpression (object property : node) (computed : bool)
| CallExpression (callee : node) (arguments : list node)
| TSAsExpression (expression : node)
| TypeCastExpression (expression : node)
| JSXElement (openingElement : node) (children : list node)
| JSXOpeningElement (name : node) (attributes : list node)
| JSXAttribute (name : node) (value : option node)
| JSXSpreadAttribute (argument : node)
| JSXIdentifier (name : string)
| JSXMemberExpression (object property : node)
| JSXNamespacedName (namespace name : node)
| JSXText (value : string)
| JSXExpressionContainer (expression : node)
| Other (type : string) (children : list node).

Definition optNode (o : option node) : list node :=
  match o with Some n => [n] | None => [] end.

Definition optNodes (l : list (option node)) : list node :=
  flat_map optNode l.

(** The children of a node in the order of Babel's [VISITOR_KEYS]. *)
Definition childNodes (n : node) : list node :=
  match n with
  | File program => [program]
  | Program body => body
  | ExportDefaultDeclaration declaration => [declaration]
  | FunctionDeclaration id params body => optNode id ++ params ++ [body]
  | FunctionExpression id params body => optNode id ++ params ++ [body]
  | ArrowFunctionExpression params body => params ++ [body]
  | ObjectMethod key params body => key :: params ++ [body]
  | ClassMethod key params body => key :: params ++ [body]
  | VariableDeclaration declarations => declarations
  | VariableDeclarator id init => id :: optNode init
  | BlockStatement body => body
  | ExpressionStatement expression => [expression]
  | ReturnStatement argument => optNode argument
  | IfStatement test consequent alternate =>
      test :: consequent :: optNode alternate
  | Identifier _ | StringLiteral _ | NumericLiteral _ | BooleanLiteral _
  | BigIntLiteral _ | NullLiteral | RegExpLiteral _ _ => []
  | TemplateLiteral quasis expressions => quasis ++ expressions
  | ArrayPattern elements => optNodes elements
  | ObjectPattern properties => properties
  | ObjectProperty key value _ => [key; value]
  | RestElement argument => [argument]
  | ArrayExpression elements => optNodes elements
  | MemberExpression object property _ => [object; property]
  | CallExpression callee arguments => callee :: arguments
  | TSAsExpression expression => [expression]
  | TypeCastExpression expression => [expression]
  | JSXElement openingElement children => openingElement :: children
  | JSXOpeningElement name attributes => name :: attributes
  | JSXAttribute name value => name :: optNode value
  | JSXSpreadAttribute argument => [argument]
  | JSXIdentifier _ | JSXText _ => []
  | JSXMemberExpression object property => [object; property]
  | JSXNamespacedName namespace name => [namespace; name]
  | JSXExpressionContainer expression => [expression]
  | Other _ children => children
  end.

(** ** Paths

    A [NodePath] is a node with the chain of its [parentPath]s, the
    nearest parent first. *)

Record NodePath : Type := mkPath { pnode : node; ancestors : list node }.

(** [traverse] enters the nodes in pre-order; [walk anc n] lists the
    paths of [n] and of everything below it. *)
Fixpoint walk (anc : list node) (n : node) {struct n} : list NodePath :=
  let down := walk (n :: anc) in
  let downO := fun o : option node =>
    match o with Some c => down c | None => [] end in
  mkPath n anc ::
  match n with
  | File program => down program
  | Program body => flat_map down body
  | ExportDefaultDeclaration declaration => down declaration
  | FunctionDeclaration id params body =>
      downO id ++ flat_map down params ++ down body
  | FunctionExpression id params body =>
      downO id ++ flat_map down params ++ down body
  | ArrowFunctionExpression params body => flat_map down params ++ down body
  | ObjectMethod key params body =>
      down key ++ flat_map down params ++ down body
  | ClassMethod key params body =>
      down key ++ flat_map down params ++ down body
  | VariableDeclaration declarations => flat_map down declarations
  | VariableDeclarator id init => down id ++ downO init
  | BlockStatement body => flat_map down body
  | ExpressionStatement expression => down expression
  | ReturnStatement argument => downO argument
  | IfStatement test consequent alternate =>
      down test ++ down consequent ++ downO alternate
  | Identifier _ | StringLiteral _ | NumericLiteral _ | BooleanLiteral _
  | BigIntLiteral _ | NullLiteral | RegExpLiteral _ _ => []
  | TemplateLiteral quasis expressions =>
      flat_map down quasis ++ flat_map down expressions
  | ArrayPattern elements => flat_map downO elements
  | ObjectPattern properties => flat_map down properties
  | ObjectProperty key value _ => down key ++ down value
  | RestElement argument => down argument
  | ArrayExpression elements => flat_map downO elements
  | MemberExpression object property _ => down object ++ down property
  | CallExpression callee arguments => down callee ++ flat_map down arguments
  | TSAsExpression expression => down expression
  | TypeCastExpression expression => down expression
  | JSXElement openingElement children =>
      down openingElement ++ flat_map down children
  | JSXOpeningElement name attributes => down name ++ flat_map down attributes
  | JSXAttribute name value => down name ++ downO value
  | JSXSpreadAttribute argument => down argument
  | JSXIdentifier _ | JSXText _ => []
  | JSXMemberExpression object property => down object ++ down property
  | JSXNamespacedName namespace name => down namespace ++ down name
  | JSXExpressionContainer expression => down expression
  | Other _ children => flat_map down children
  end.

(** [traverse(root, visitor)] visits what is below [root]; the root
    itself gets no path.  This is the list of the paths that the
    visitors are called on when the library raises nothing on its own;
    the errors of the library (its crawl of the scopes can raise) are
    the subject of [Babel] below. *)
Definition traverse (root : node) : list NodePath :=
  flat_map (walk []) (childNodes root).


(** [path.parentPath], [path.findParent(cb)] (which starts at the parent,
    never at the path itself) and [path.getFunctionParent()]. *)
Definition parentPath (path : NodePath) : option NodePath :=
  match ancestors path with
  | [] => None
  | n :: rest => Some (mkPath n rest)
  end.

Fixpoint findParentFrom (cb : NodePath -> bool) (anc : list node)
  : option NodePath :=
  match anc with
  | [] => None
  | n :: rest =>
      if cb (mkPath n rest) then Some (mkPath n rest)
      else findParentFrom cb rest
  end.

Definition findParent (path : NodePath) (cb : NodePath -> bool)
  : option NodePath :=
  findParentFrom cb (ancestors path).

Definition isFunction (n : node) : bool :=
  match n with
  | FunctionDeclaration _ _ _ | FunctionExpression _ _ _
  | ArrowFunctionExpression _ _ | ObjectMethod _ _ _ | ClassMethod _ _ _ =>
      true
  | _ => false
  end.

Definition isFunctionDeclaration (n : node) : bool :=
  match n with FunctionDeclaration _ _ _ => true | _ => false end.

Definition isVariableDeclarator (n : node) : bool :=
  match n with VariableDeclarator _ _ => true | _ => false end.

Definition isJSXElement (n : node) : bool :=
  match n with JSXElement _ _ => true | _ => false end.

Definition isCallExpression (n : node) : bool :=
  match n with CallExpression _ _ => true | _ => false end.

Definition getFunctionParent (path : NodePath) : option NodePath :=
  findParent path (fun p => isFunction (pnode p)).

(** [t.isIdentifier(n, { name })]. *)
Definition isIdentifierNamed (n : node) (name : string) : bool :=
  match n with Identifier x => x =? name | _ => false end.

(** [id?.name] of a function's [id], which is an Identifier or null. *)
Definition idName (id : option node) : option string :=
  match id with Some (Identifier x) => Some x | _ => None end.

(** ** JavaScript values the analyzer handles *)

(** A string is truthy when it is not empty. *)
Definition truthy (s : string) : bool := negb (s =? EmptyString).

Definition lowerAscii (c : ascii) : ascii :=
  let n := nat_of_ascii c in
  if ((65 <=? n) && (n <=? 90))%nat then ascii_of_nat (n + 32) else c.

(** [s.toLowerCase()], on the ASCII letters. *)
Fixpoint toLowerCase (s : string) : string :=
  match s with
  | EmptyString => EmptyString
  | String c rest => String (lowerAscii c) (toLowerCase rest)
  end.

Definition isSpace (c : ascii) : bool :=
  let n := nat_of_ascii c in (((9 <=? n) && (n <=? 13)) || (n =? 32))%nat.

Fixpoint trimStart (s : string) : string :=
  match s with
  | String c rest => if isSpace c then trimStart rest else s
  | EmptyString => EmptyString
  end.

Fixpoint trimEnd (s : string) : string :=
  match s with
  | EmptyString => EmptyString
  | String c rest =>
      match trimEnd rest with
      | EmptyString => if isSpace c then EmptyString
                       else String c EmptyString
      | t => String c t
      end
  end.

(** [s.trim()], on ASCII white space: the texts of the model are texts
    of ASCII characters, and the white space beyond ASCII that
    [String.prototype.trim] strips as well (U+00A0, U+FEFF, ...) is not
    in it. *)
Definition trim (s : string) : string := trimEnd (trimStart s).

(** [key.startsWith(p)]. *)
Definition startsWith (key p : string) : bool := prefix p key.

(** An attribute value as the analyzer stores it: [string | boolean]. *)
Inductive propValue : Type :=
| PBool (b : bool)
| PString (s : string).

(** [String(v)]. *)
Definition jsString (v : propValue) : string :=
  match v with
  | PBool true => "true"
  | PBool false => "false"
  | PString s => s
  end.

(** [v === s] for a string [s]. *)
Definition strictEqString (v : option propValue) (s : string) : bool :=
  match v with Some (PString x) => x =? s | _ => false end.

(** A plain object literal [{}] used as a record: its own properties in
    insertion order (no key of the analyzer is an integer index). *)
Definition jsObject (V : Type) : Type := list (string * V).

Fixpoint getOwn {V : Type} (o : jsObject V) (key : string) : option V :=
  match o with
  | [] => None
  | (k, v) :: rest => if k =? key then Some v else getOwn rest key
  end.

Fixpoint setOwn {V : Type} (o : jsObject V) (key : string) (v : V)
  : jsObject V :=
  match o with
  | [] => [(key, v)]
  | (k, w) :: rest =>
      if k =? key then (k, v) :: rest else (k, w) :: setOwn rest key v
  end.

(** The properties every plain object inherits from [Object.prototype]. *)
Definition objectPrototypeKeys : list string :=
  [ "constructor"; "__defineGetter__"; "__defineSetter__"; "hasOwnProperty";
    "__lookupGetter__"; "__lookupSetter__"; "isPrototypeOf";
    "propertyIsEnumerable"; "toString"; "valueOf"; "__proto__";
    "toLocaleString" ].

Definition inObjectPrototype (key : string) : bool :=
  existsb (String.eqb key) objectPrototypeKeys.

(** [o[key] = v] for a string or boolean [v]: the inherited [__proto__]
    setter ignores a primitive, every other key becomes an own property. *)
Definition assign {V : Type} (o : jsObject V) (key : string) (v : V)
  : jsObject V :=
  if key =? "__proto__" then o else setOwn o key v.

(** A computation that may raise: [Throw] carries the error's message. *)
Inductive result (A : Type) : Type :=
| Ok (a : A)
| Throw (message : string).
Arguments Ok {A} a.
Arguments Throw {A} message.

Definition bind {A B : Type} (r : result A) (k : A -> result B) : result B :=
  match r with
  | Ok a => k a
  | Throw m => Throw m
  end.

Notation "x <- r ;; k" := (bind r (fun x => k))
  (at level 61, r at next level, right associativity).

(** ** The data model of the source *)

Module Element.
Record JSXElementInfo : Type := mk {
  type : string;
  props : jsObject propValue;
  text : option string;
  testId : option string;
  events : jsObject string;
  roleHint : option string
}.
End Element.

Record StateInfo : Type := mkState { stateVar : string; setter : string }.

Inductive apiType : Type := axios | fetch.

Module Api.
Record ApiInfo : Type := mk {
  type : apiType;
  method : option string;
  url : string
}.
End Api.

Record AnalyzedComponent : Type := mkAnalyzed {
  name : string;
  elements : list Element.JSXElementInfo;
  states : list StateInfo;
  effects : bool;
  props : list string;
  usesFetch : bool;
  usesAxios : bool;
  apis : list Api.ApiInfo;
  effectDeps : list string;
  eventToSetterMap : jsObject (list string)
}.

(** ** The helpers of the analyzer *)

Fixpoint getJsxName (n : node) : string :=
  match n with
  | JSXIdentifier name => name
  | JSXMemberExpression object property =>
      getJsxName object ++ "." ++ getJsxName property
  | JSXNamespacedName namespace name =>
      match namespace with
      | JSXIdentifier ns => ns
      | _ => "undefined"
      end ++ ":" ++ getJsxName name
  | _ => "Unknown"
  end.

Definition guessRole (name : string) (props : jsObject propValue)
  : option string :=
  let lower := toLowerCase name in
  if (lower =? "button") || strictEqString (getOwn props "role") "button"
  then Some "button"
  else
    let textbox :=
      if (lower =? "input") || strictEqString (getOwn props "role") "textbox"
      then
        let type :=
          toLowerCase
            (jsString
               (match getOwn props "type" with
                | Some v => v
                | None => PString EmptyString
                end)) in
        negb (truthy type) || (type =? "text")
      else false in
    if textbox then Some "textbox"
    else if (lower =? "a") || strictEqString (getOwn props "role") "link"
    then Some "link"
    else if (lower =? "img") || strictEqString (getOwn props "role") "img"
    then Some "img"
    else None.

Definition literalToString (n : node) : propValue :=
  match n with
  | StringLiteral value => PString value
  | NumericLiteral value => PString value
  | BooleanLiteral value => PBool value
  | BigIntLiteral value => PString value
  | JSXText value => PString value
  | ObjectProperty _ _ _ | JSXAttribute _ (Some _) => PString "[object Object]"
  | _ => PString "dynamic"
  end.

(** [t.isLiteral]. *)
Definition isLiteral (n : node) : bool :=
  match n with
  | StringLiteral _ | NumericLiteral _ | BooleanLiteral _ | BigIntLiteral _
  | NullLiteral | RegExpLiteral _ _ | TemplateLiteral _ _ => true
  | _ => false
  end.

Record JsxProps : Type := mkJsxProps {
  jp_props : jsObject propValue;
  jp_testId : option string;
  jp_events : jsObject string
}.

(** The value stored for [key={expr}], and the handler recorded for an
    [on...] key bound to an identifier. *)
Definition containerValue (expr : node) : propValue * option string :=
  match expr with
  | Identifier x => (PString ("expr:" ++ x), Some x)
  | TSAsExpression inner | TypeCastExpression inner =>
      match inner with
      | Identifier x => (PString ("expr:" ++ x), Some x)
      | _ => (literalToString inner, None)
      end
  | _ =>
      if isLiteral expr then (literalToString expr, None)
      else (PString "dynamic", None)
  end.

(** One turn of the loop of [getJsxProps]. *)
Definition jsxAttr (acc : JsxProps) (attr : node) : JsxProps :=
  match attr with
  | JSXAttribute (JSXIdentifier key) val =>
      let '(v, handler) :=
        match val with
        | None => (PBool true, None)
        | Some (StringLiteral s) => (PString s, None)
        | Some (JSXExpressionContainer expr) => containerValue expr
        | Some _ => (PString "unknown", None)
        end in
      mkJsxProps
        (assign (jp_props acc) key v)
        (match val with
         | Some (StringLiteral s) =>
             if key =? "data-testid" then Some s else jp_testId acc
         | _ => jp_testId acc
         end)
        (match handler with
         | Some h =>
             if startsWith key "on" then assign (jp_events acc) key h
             else jp_events acc
         | None => jp_events acc
         end)
  | _ => acc
  end.

Definition getJsxProps (attrs : list node) : JsxProps :=
  fold_left jsxAttr attrs (mkJsxProps [] None []).

(** The name of the default export, when it has one of the three
    shapes; [None] is the empty object [{}]. *)
Definition unwrapDefaultExport (decl : node) : option string :=
  match decl with
  | FunctionDeclaration id _ _ =>
      match idName id with
      | Some x => if truthy x then Some x else None
      | None => None
      end
  | Identifier x => Some x
  | CallExpression _ arguments =>
      match arguments with
      | Identifier x :: _ => Some x
      | _ => None
      end
  | _ => None
  end.

(** [n.id?.name] when [n] is a function declaration. *)
Definition functionDeclarationName (n : node) : option string :=
  match n with
  | FunctionDeclaration id _ _ => idName id
  | _ => None
  end.

Definition isInsideComponent (path : NodePath) (componentName : string)
  : bool :=
  let func := getFunctionParent path in
  if match func with
     | Some f =>
         match functionDeclarationName (pnode f) with
         | Some x => x =? componentName
         | None => false
         end
     | None => false
     end
  then true
  else
    let varDecl := findParent path (fun p => isVariableDeclarator (pnode p)) in
    match varDecl with
    | Some (mkPath (VariableDeclarator (Identifier y) _) _) =>
        y =? componentName
    | _ => false
    end.

(** ** The accumulators of [analyzeComponent]

    The local variables that the visitors close over are the fields of
    the record that is returned in the end, so the accumulator is that
    record. *)

Definition initial (componentName : string) : AnalyzedComponent :=
  mkAnalyzed componentName [] [] false [] false false [] [] [].

Definition pushElement (e : Element.JSXElementInfo) (a : AnalyzedComponent)
  : AnalyzedComponent :=
  mkAnalyzed (name a) (elements a ++ [e]) (states a) (effects a) (props a)
    (usesFetch a) (usesAxios a) (apis a) (effectDeps a) (eventToSetterMap a).

Definition pushState (st : StateInfo) (a : AnalyzedComponent)
  : AnalyzedComponent :=
  mkAnalyzed (name a) (elements a) (states a ++ [st]) (effects a) (props a)
    (usesFetch a) (usesAxios a) (apis a) (effectDeps a) (eventToSetterMap a).

Definition pushProps (ps : list string) (a : AnalyzedComponent)
  : AnalyzedComponent :=
  mkAnalyzed (name a) (elements a) (states a) (effects a) (props a ++ ps)
    (usesFetch a) (usesAxios a) (apis a) (effectDeps a) (eventToSetterMap a).

Definition markEffect (deps : list string) (a : AnalyzedComponent)
  : AnalyzedComponent :=
  mkAnalyzed (name a) (elements a) (states a) true (props a)
    (usesFetch a) (usesAxios a) (apis a) (effectDeps a ++ deps)
    (eventToSetterMap a).

Definition pushFetch (api : Api.ApiInfo) (a : AnalyzedComponent)
  : AnalyzedComponent :=
  mkAnalyzed (name a) (elements a) (states a) (effects a) (props a)
    true (usesAxios a) (apis a ++ [api]) (effectDeps a) (eventToSetterMap a).

Definition pushAxios (api : Api.ApiInfo) (a : AnalyzedComponent)
  : AnalyzedComponent :=
  mkAnalyzed (name a) (elements a) (states a) (effects a) (props a)
    (usesFetch a) true (apis a ++ [api]) (effectDeps a) (eventToSetterMap a).

Definition withEventToSetterMap (m : jsObject (list string))
    (a : AnalyzedComponent) : AnalyzedComponent :=
  mkAnalyzed (name a) (elements a) (states a) (effects a) (props a)
    (usesFetch a) (usesAxios a) (apis a) (effectDeps a) m.

(** ** Pass 2: the visitors *)

Definition paramsOf (p : node) : list node :=
  match p with
  | FunctionDeclaration _ params _ | FunctionExpression _ params _
  | ArrowFunctionExpression params _ | ObjectMethod _ params _
  | ClassMethod _ params _ => params
  | _ => []
  end.

Definition propNames (prop : node) : list string :=
  match prop with
  | ObjectProperty (Identifier x) _ _ => [x]
  | RestElement (Identifier x) => [x]
  | _ => []
  end.

(** The names [collectPropsFromParams(p)] pushes onto [props]. *)
Definition collectPropsFromParams (p : node) : list string :=
  match paramsOf p with
  | ObjectPattern properties :: _ => flat_map propNames properties
  | Identifier x :: _ => [x]
  | _ => []
  end.

(** [hook] called by its bare name or as [React.hook]. *)
Definition isHookCallee (callee : node) (hook : string) : bool :=
  isIdentifierNamed callee hook
  || match callee with
     | MemberExpression object property _ =>
         isIdentifierNamed object "React" && isIdentifierNamed property hook
     | _ => false
     end.

(** The pair that the [useState] rule pushes for a declarator, if any:
    [const [stateVar, stateSetter] = path.node.id.elements]. *)
Definition useStatePair (id : node) (init : option node)
  : option StateInfo :=
  match id, init with
  | ArrayPattern elements, Some (CallExpression callee _) =>
      if isHookCallee callee "useState" then
        match nth_error elements 0, nth_error elements 1 with
        | Some (Some (Identifier stateVar)),
          Some (Some (Identifier stateSetter)) =>
            Some (mkState stateVar stateSetter)
        | _, _ => None
        end
      else None
  | _, _ => None
  end.

Definition visitFunctionDeclaration (componentName : string)
    (path : NodePath) (acc : AnalyzedComponent) : AnalyzedComponent :=
  match functionDeclarationName (pnode path) with
  | Some x =>
      if x =? componentName
      then pushProps (collectPropsFromParams (pnode path)) acc
      else acc
  | None => acc
  end.

Definition visitVariableDeclarator (componentName : string)
    (path : NodePath) (acc : AnalyzedComponent) : AnalyzedComponent :=
  match pnode path with
  | VariableDeclarator id init =>
      let acc1 :=
        if isIdentifierNamed id componentName then
          match init with
          | Some (ArrowFunctionExpression _ _ as f)
          | Some (FunctionExpression _ _ _ as f) =>
              pushProps (collectPropsFromParams f) acc
          | _ => acc
          end
        else acc in
      if negb (isInsideComponent path componentName) then acc1
      else
        match useStatePair id init with
        | Some st => pushState st acc1
        | None => acc1
        end
  | _ => acc
  end.

Definition isJSXText (n : node) : bool :=
  match n with JSXText _ => true | _ => false end.

(** The record built for an element with the given opening tag. *)
Definition elementInfo (name : node) (attributes children : list node)
  : Element.JSXElementInfo :=
  let jp := getJsxProps attributes in
  let type := getJsxName name in
  Element.mk type (jp_props jp)
    (match find isJSXText children with
     | Some (JSXText value) => Some (trim value)
     | _ => None
     end)
    (jp_testId jp) (jp_events jp) (guessRole type (jp_props jp)).

Definition visitJSXElement (componentName : string)
    (path : NodePath) (acc : AnalyzedComponent) : result AnalyzedComponent :=
  match pnode path with
  | JSXElement openingElement children =>
      if negb (isInsideComponent path componentName) then Ok acc
      else
        match openingElement with
        | JSXOpeningElement name attributes =>
            Ok (pushElement (elementInfo name attributes children) acc)
        | _ => Throw "TypeError: attrs is not iterable"
        end
  | _ => Ok acc
  end.

(** The names of the elements that are identifiers: what
    [elements.forEach] pushes. *)
Definition identifierNames (elements : list (option node)) : list string :=
  flat_map
    (fun el => match el with Some (Identifier x) => [x] | _ => [] end)
    elements.

(** The dependencies read from the array given as second argument. *)
Definition effectDepNames (arguments : list node) : list string :=
  match nth_error arguments 1 with
  | Some (ArrayExpression elements) => identifierNames elements
  | _ => []
  end.

(** The statements of the effect callback that are walked again. *)
Definition effectStatements (arguments : list node) : option (list node) :=
  match nth_error arguments 0 with
  | Some (ArrowFunctionExpression _ body)
  | Some (FunctionExpression _ _ body) =>
      Some
        match body with
        | BlockStatement statements => statements
        | _ => [ExpressionStatement body]
        end
  | _ => None
  end.

Definition urlOf (arguments : list node) : string :=
  match arguments with
  | StringLiteral value :: _ => value
  | _ => "unknown"
  end.

(** The [CallExpression] visitor of the walk over the effect body. *)
Definition apiVisitor (acc : AnalyzedComponent) (apiPath : NodePath)
  : AnalyzedComponent :=
  match pnode apiPath with
  | CallExpression callee arguments =>
      let acc1 :=
        match callee with
        | MemberExpression object (Identifier m) _ =>
            if isIdentifierNamed object "axios"
            then pushAxios (Api.mk axios (Some m) (urlOf arguments)) acc
            else acc
        | _ => acc
        end in
      if isIdentifierNamed callee "fetch"
      then pushFetch (Api.mk fetch None (urlOf arguments)) acc1
      else acc1
  | _ => acc
  end.

Definition visitEffect (callee : node) (arguments : list node)
    (acc : AnalyzedComponent) : AnalyzedComponent :=
  if isHookCallee callee "useEffect" then
    let acc1 := markEffect (effectDepNames arguments) acc in
    match effectStatements arguments with
    | Some statements =>
        fold_left apiVisitor (traverse (File (Program statements))) acc1
    | None => acc1
    end
  else acc.

(** The name derived for the function around a setter call. *)
Definition handlerName (handlerFunc : NodePath) : string :=
  match parentPath handlerFunc with
  | Some (mkPath (VariableDeclarator (Identifier x) _) _) => x
  | _ =>
      match functionDeclarationName (pnode handlerFunc) with
      | Some x => if truthy x then x else EmptyString
      | None => EmptyString
      end
  end.

(** The message of the error raised by calling the missing [push]. *)
Definition pushIsNotAFunction : string :=
  "TypeError: eventToSetterMap[name].push is not a function".

(** [if (!map[name]) map[name] = []; map[name].push(setterName)]: what
    [map[name]] reads is the own array, or else what [Object.prototype]
    holds under that name, which has no [push]. *)
Definition pushSetter (name setterName : string)
    (map : jsObject (list string)) : result (jsObject (list string)) :=
  match getOwn map name with
  | Some l => Ok (setOwn map name (l ++ [setterName]))
  | None =>
      if inObjectPrototype name
      then Throw pushIsNotAFunction
      else Ok (setOwn map name [setterName])
  end.

Definition visitSetterCall (path : NodePath) (callee : node)
    (acc : AnalyzedComponent) : result AnalyzedComponent :=
  match callee with
  | Identifier setterName =>
      if existsb (fun s => setter s =? setterName) (states acc) then
        match getFunctionParent path with
        | Some handlerFunc =>
            let name := handlerName handlerFunc in
            if truthy name then
              m <- pushSetter name setterName (eventToSetterMap acc) ;;
              Ok (withEventToSetterMap m acc)
            else Ok acc
        | None => Ok acc
        end
      else Ok acc
  | _ => Ok acc
  end.

Definition visitCallExpression (componentName : string)
    (path : NodePath) (acc : AnalyzedComponent) : result AnalyzedComponent :=
  match pnode path with
  | CallExpression callee arguments =>
      if negb (isInsideComponent path componentName) then Ok acc
      else visitSetterCall path callee (visitEffect callee arguments acc)
  | _ => Ok acc
  end.

(** The visitor object of pass 2, dispatched on the node type. *)
Definition visit (componentName : string) (path : NodePath)
    (acc : AnalyzedComponent) : result AnalyzedComponent :=
  match pnode path with
  | FunctionDeclaration _ _ _ =>
      Ok (visitFunctionDeclaration componentName path acc)
  | VariableDeclarator _ _ =>
      Ok (visitVariableDeclarator componentName path acc)
  | JSXElement _ _ => visitJSXElement componentName path acc
  | CallExpression _ _ => visitCallExpression componentName path acc
  | _ => Ok acc
  end.

(** Running a visitor over the paths in order; a raised error ends it. *)
Fixpoint visitAll {A : Type} (v : NodePath -> A -> result A)
    (paths : list NodePath) (acc : A) : result A :=
  match paths with
  | [] => Ok acc
  | p :: rest => acc1 <- v p acc ;; visitAll v rest acc1
  end.

(** ** Pass 1: the component's name *)

(** [const u = unwrapDefaultExport(path); if (u.name) componentName =
    u.name]. *)
Definition nameOfExport (componentName : string) (decl : node) : string :=
  match unwrapDefaultExport decl with
  | Some x => if truthy x then x else componentName
  | None => componentName
  end.

Definition nameVisitor (componentName : string) (path : NodePath) : string :=
  match pnode path with
  | ExportDefaultDeclaration decl => nameOfExport componentName decl
  | _ => componentName
  end.

Definition findComponentName (ast : node) : string :=
  fold_left nameVisitor (traverse ast) "Anonymous".

(** ** The analysis of a parsed file *)

Definition analyzeAst (ast : node) : result AnalyzedComponent :=
  let componentName := findComponentName ast in
  visitAll (visit componentName) (traverse ast) (initial componentName).

(** ** [analyzeComponent]

    Reading the file and parsing its text belong to [fs] and to
    [@babel/parser]; they are taken as they come, each either a value or
    a raised error with its message. *)

Definition quote : string := String "034"%char EmptyString.

Section AnalyzeComponent.

Variable World : Type.
Variable readFileSync : World -> string -> result string.
Variable parse : string -> string -> result node.

Definition analyzeComponent (w : World) (filePath : string)
  : result AnalyzedComponent :=
  match readFileSync w filePath with
  | Throw message =>
      Throw ("Failed to read file " ++ quote ++ filePath ++ quote ++ ": "
             ++ message)
  | Ok code =>
      match parse code filePath with
      | Throw message =>
          Throw ("Failed to parse " ++ quote ++ filePath ++ quote ++ ": "
                 ++ message)
      | Ok ast => analyzeAst ast
      end
  end.

End AnalyzeComponent.

(** ** Sample files

    Trees of small components, as [@babel/parser] builds them. *)

Module Samples.

Definition useStateCall (arg : node) : node :=
  CallExpression (Identifier "useState") [arg].

Definition statePair (value setterName : string) (arg : node) : node :=
  VariableDeclaration
    [VariableDeclarator
       (ArrayPattern [Some (Identifier value); Some (Identifier setterName)])
       (Some (useStateCall arg))].

Definition constDecl (x : string) (init : node) : node :=
  VariableDeclaration [VariableDeclarator (Identifier x) (Some init)].

Definition callStmt (f : string) (args : list node) : node :=
  ExpressionStatement (CallExpression (Identifier f) args).

Definition tag (t : string) (attributes children : list node) : node :=
  JSXElement (JSXOpeningElement (JSXIdentifier t) attributes) children.

Definition attr (k v : string) : node :=
  JSXAttribute (JSXIdentifier k) (Some (StringLiteral v)).

Definition attrExpr (k : string) (e : node) : node :=
  JSXAttribute (JSXIdentifier k) (Some (JSXExpressionContainer e)).

Definition file (body : list node) : node := File (Program body).

(** The component of the README:
<<
  const Todos = () => {
    const [todos, setTodos] = useState([]);
    const [input, setInput] = useState("");
    useEffect(() => {
      fetch("https://jsonplaceholder.typicode.com/todos?_limit=3")
        .then((data) => { setTodos(data); });
    }, []);
    const addTodo = () => {
      if (input.trim()) { setTodos([input]); setInput(""); }
    };
    return (
      <div>
        <h1 data-testid="heading">Todo List</h1>
        <input data-testid="todo-input" value={input}
               onChange={(e) => setInput(e.target.value)}
               placeholder="Add a todo" />
        <button data-testid="add-button" onClick={addTodo}>Add</button>
        <ul>{todos.map((todo) => (<li data-testid="todo">{todo}</li>))}</ul>
      </div>);
  };
  export default Todos;
>> *)
Definition todosUrl : string :=
  "https://jsonplaceholder.typicode.com/todos?_limit=3".

Definition todosEffect : node :=
  ExpressionStatement
    (CallExpression (Identifier "useEffect")
       [ ArrowFunctionExpression []
           (BlockStatement
              [ ExpressionStatement
                  (CallExpression
                     (MemberExpression
                        (CallExpression (Identifier "fetch")
                           [StringLiteral todosUrl])
                        (Identifier "then") false)
                     [ ArrowFunctionExpression [Identifier "data"]
                         (BlockStatement
                            [callStmt "setTodos" [Identifier "data"]]) ]) ]);
         ArrayExpression [] ]).

Definition addTodo : node :=
  constDecl "addTodo"
    (ArrowFunctionExpression []
       (BlockStatement
          [ IfStatement
              (CallExpression
                 (MemberExpression (Identifier "input") (Identifier "trim")
                    false) [])
              (BlockStatement
                 [ callStmt "setTodos" [ArrayExpression
                                          [Some (Identifier "input")]];
                   callStmt "setInput" [StringLiteral EmptyString] ])
              None ])).

Definition todosMarkup : node :=
  tag "div" []
    [ tag "h1" [attr "data-testid" "heading"] [JSXText "Todo List"];
      tag "input"
        [ attr "data-testid" "todo-input";
          attrExpr "value" (Identifier "input");
          attrExpr "onChange"
            (ArrowFunctionExpression [Identifier "e"]
               (CallExpression (Identifier "setInput")
                  [MemberExpression
                     (MemberExpression (Identifier "e")
                        (Identifier "target") false)
                     (Identifier "value") false]));
          attr "placeholder" "Add a todo" ] [];
      tag "button"
        [attr "data-testid" "add-button";
         attrExpr "onClick" (Identifier "addTodo")]
        [JSXText "Add"];
      tag "ul" []
        [ JSXExpressionContainer
            (CallExpression
               (MemberExpression (Identifier "todos") (Identifier "map")
                  false)
               [ ArrowFunctionExpression [Identifier "todo"]
                   (tag "li" [attr "data-testid" "todo"]
                      [JSXExpressionContainer (Identifier "todo")]) ]) ] ].

Definition todos : node :=
  file
    [ constDecl "Todos"
        (ArrowFunctionExpression []
           (BlockStatement
              [ statePair "todos" "setTodos" (ArrayExpression []);
                statePair "input" "setInput" (StringLiteral EmptyString);
                todosEffect;
                addTodo;
                ReturnStatement (Some todosMarkup) ]));
      ExportDefaultDeclaration (Identifier "Todos") ].

(** A component written as a function declaration that renders a list:
<<
  export default function Users() {
    const [items, setItems] = useState([]);
    return <ul>{items.map((item) => <li>{item}</li>)}</ul>;
  }
>> *)
Definition usersItem : node :=
  tag "li" [] [JSXExpressionContainer (Identifier "item")].

Definition usersList : node :=
  tag "ul" []
    [ JSXExpressionContainer
        (CallExpression
           (MemberExpression (Identifier "items") (Identifier "map") false)
           [ArrowFunctionExpression [Identifier "item"] usersItem]) ].

Definition usersFunction : node :=
  FunctionDeclaration (Some (Identifier "Users")) []
    (BlockStatement
       [ statePair "items" "setItems" (ArrayExpression []);
         ReturnStatement (Some usersList) ]).

Definition users : node := file [ExportDefaultDeclaration usersFunction].

(** A handler that is a function declaration named like a member of
    [Object.prototype]:
<<
  const Counter = () => {
    const [n, setN] = useState(0);
    function valueOf() { setN(1); }
    return <button onClick={valueOf}>+</button>;
  };
  export default Counter;
>> *)
Definition counter (handler : string) : node :=
  file
    [ constDecl "Counter"
        (ArrowFunctionExpression []
           (BlockStatement
              [ statePair "n" "setN" (NumericLiteral "0");
                FunctionDeclaration (Some (Identifier handler)) []
                  (BlockStatement [callStmt "setN" [NumericLiteral "1"]]);
                ReturnStatement
                  (Some
                     (tag "button"
                        [attrExpr "onClick" (Identifier handler)]
                        [JSXText "+"])) ]));
      ExportDefaultDeclaration (Identifier "Counter") ].

(** A state declaration that destructures three names:
<<
  export default function Three() {
    const [a, setA, extra] = React.useState(0);
    return null;
  }
>> *)
Definition threePattern : node :=
  ArrayPattern
    [Some (Identifier "a"); Some (Identifier "setA");
     Some (Identifier "extra")].

Definition three : node :=
  file
    [ ExportDefaultDeclaration
        (FunctionDeclaration (Some (Identifier "Three")) []
           (BlockStatement
              [ VariableDeclaration
                  [VariableDeclarator threePattern
                     (Some
                        (CallExpression
                           (MemberExpression (Identifier "React")
                              (Identifier "useState") false)
                           [NumericLiteral "0"]))];
                ReturnStatement (Some NullLiteral) ])) ].

(** A component that calls the network from an effect and, with the
    same text, from a handler and from its body:
<<
  export default function Loader({ id, ...rest }) {
    useEffect(() => { fetch("/api"); axios.get("/api"); }, [id, 1]);
    function reload() { fetch("/api"); axios.get("/api"); }
    fetch("/api");
    return <img src="x.png" />;
  }
>> *)
Definition netCalls : list node :=
  [ callStmt "fetch" [StringLiteral "/api"];
    ExpressionStatement
      (CallExpression
         (MemberExpression (Identifier "axios") (Identifier "get") false)
         [StringLiteral "/api"]) ].

Definition loaderEffect : node :=
  ExpressionStatement
    (CallExpression (Identifier "useEffect")
       [ ArrowFunctionExpression [] (BlockStatement netCalls);
         ArrayExpression [Some (Identifier "id");
                          Some (NumericLiteral "1")] ]).

Definition loaderWith (effect : list node) : node :=
  file
    [ ExportDefaultDeclaration
        (FunctionDeclaration (Some (Identifier "Loader"))
           [ObjectPattern
              [ObjectProperty (Identifier "id") (Identifier "id") false;
               RestElement (Identifier "rest")]]
           (BlockStatement
              (effect ++
               [ FunctionDeclaration (Some (Identifier "reload")) []
                   (BlockStatement netCalls);
                 callStmt "fetch" [StringLiteral "/api"];
                 ReturnStatement
                   (Some (tag "img" [attr "src" "x.png"] [])) ]))) ].

Definition loader : node := loaderWith [loaderEffect].
Definition loaderNoEffect : node := loaderWith [].

(** A file whose default export is an arrow function:
<<
  function Helper() {
    const [x, setX] = useState(0);
    useEffect(() => { fetch("/api"); }, [x]);
    return <p>help</p>;
  }
  export default () => <Helper />;
>> *)
Definition anonymous : node :=
  file
    [ FunctionDeclaration (Some (Identifier "Helper")) []
        (BlockStatement
           [ statePair "x" "setX" (NumericLiteral "0");
             ExpressionStatement
               (CallExpression (Identifier "useEffect")
                  [ ArrowFunctionExpression []
                      (BlockStatement
                         [callStmt "fetch" [StringLiteral "/api"]]);
                    ArrayExpression [Some (Identifier "x")] ]);
             ReturnStatement (Some (tag "p" [] [JSXText "help"])) ]);
      ExportDefaultDeclaration
        (ArrowFunctionExpression [] (tag "Helper" [] [])) ].

(** A component that registers its effect inside a helper:
<<
  export default function Users() {
    const [a, setA] = useState(0);
    const subscribe = () => {
      useEffect(() => {}, [a]);
    };
    return null;
  }
>> *)
Definition subscribe : node :=
  constDecl "subscribe"
    (ArrowFunctionExpression []
       (BlockStatement
          [ ExpressionStatement
              (CallExpression (Identifier "useEffect")
                 [ ArrowFunctionExpression [] (BlockStatement []);
                   ArrayExpression [Some (Identifier "a")] ]) ])).

Definition subscriber : node :=
  file
    [ ExportDefaultDeclaration
        (FunctionDeclaration (Some (Identifier "Users")) []
           (BlockStatement
              [ statePair "a" "setA" (NumericLiteral "0");
                subscribe;
                ReturnStatement (Some NullLiteral) ])) ].

(** A handler that binds a variable named like the component:
<<
  const C = () => {
    const [x, setX] = useState(0);
    const h = () => { const C = setX(1); };
    return null;
  };
  export default C;
>> *)
Definition shadowing : node :=
  file
    [ constDecl "C"
        (ArrowFunctionExpression []
           (BlockStatement
              [ statePair "x" "setX" (NumericLiteral "0");
                constDecl "h"
                  (ArrowFunctionExpression []
                     (BlockStatement
                        [ constDecl "C"
                            (CallExpression (Identifier "setX")
                               [NumericLiteral "1"]) ]));
                ReturnStatement (Some NullLiteral) ]));
      ExportDefaultDeclaration (Identifier "C") ].

(** A disk with the sample components, and a parser that knows their
    texts; [analyzeComponent] reads the one and calls the other. *)
Definition Disk : Type := jsObject string.

Definition readFileSync (disk : Disk) (filePath : string) : result string :=
  match getOwn disk filePath with
  | Some code => Ok code
  | None => Throw ("ENOENT: no such file or directory, open " ++ filePath)
  end.

Definition parse (code sourceFilename : string) : result node :=
  if code =? "<Todos>" then Ok todos
  else if code =? "<Users>" then Ok users
  else if code =? "<Counter valueOf>" then Ok (counter "valueOf")
  else Throw "Unexpected token (1:0)".

Definition disk : Disk :=
  [ ("Todos.tsx", "<Todos>"); ("Users.tsx", "<Users>");
    ("Counter.tsx", "<Counter valueOf>"); ("Broken.tsx", "<") ].

Definition otherDisk : Disk :=
  [ ("Users.tsx", "<Counter valueOf>"); ("Todos.tsx", "<Todos>") ].

End Samples.

(** ** What the analysis returns for the sample files *)

Module Expected.

Definition bare (type : string) : Element.JSXElementInfo :=
  Element.mk type [] None None [] None.

Definition todos : AnalyzedComponent :=
  mkAnalyzed "Todos"
    [ bare "div";
      Element.mk "h1" [("data-testid", PString "heading")]
        (Some "Todo List") (Some "heading") [] None;
      Element.mk "input"
        [ ("data-testid", PString "todo-input");
          ("value", PString "expr:input");
          ("onChange", PString "dynamic");
          ("placeholder", PString "Add a todo") ]
        None (Some "todo-input") [] (Some "textbox");
      Element.mk "button"
        [ ("data-testid", PString "add-button");
          ("onClick", PString "expr:addTodo") ]
        (Some "Add") (Some "add-button") [("onClick", "addTodo")]
        (Some "button");
      bare "ul";
      Element.mk "li" [("data-testid", PString "todo")] None (Some "todo")
        [] None ]
    [mkState "todos" "setTodos"; mkState "input" "setInput"]
    true [] true false
    [Api.mk fetch None Samples.todosUrl]
    [] [].

Definition users : AnalyzedComponent :=
  mkAnalyzed "Users" [bare "ul"] [mkState "items" "setItems"]
    false [] false false [] [] [].

Definition three : AnalyzedComponent :=
  mkAnalyzed "Three" [] [mkState "a" "setA"] false [] false false [] [] [].

Definition image : Element.JSXElementInfo :=
  Element.mk "img" [("src", PString "x.png")] None None [] (Some "img").

Definition loader : AnalyzedComponent :=
  mkAnalyzed "Loader" [image] [] true ["id"; "rest"] true true
    [Api.mk fetch None "/api"; Api.mk axios (Some "get") "/api"]
    ["id"] [].

Definition loaderNoEffect : AnalyzedComponent :=
  mkAnalyzed "Loader" [image] [] false ["id"; "rest"] false false [] [] [].

Definition counter : AnalyzedComponent :=
  mkAnalyzed "Counter"
    [ Element.mk "button" [("onClick", PString "expr:increment")]
        (Some "+") None [("onClick", "increment")] (Some "button") ]
    [mkState "n" "setN"] false [] false false [] []
    [("increment", ["setN"])].

Definition subscriber : AnalyzedComponent :=
  mkAnalyzed "Users" [] [mkState "a" "setA"] false [] false false [] [] [].

Definition shadowing : AnalyzedComponent :=
  mkAnalyzed "C" [] [mkState "x" "setX"] false [] false false [] []
    [("h", ["setX"])].

End Expected.

(** ** What one path contributes

    The visitors of pass 2 write every accumulator but the handler map
    without reading that map, and only the handler map can raise.
    [collect] is the visitor object without the handler map; the
    functions after it give the contribution of one path to one field. *)

Definition collect (componentName : string) (acc : AnalyzedComponent)
    (path : NodePath) : AnalyzedComponent :=
  match pnode path with
  | FunctionDeclaration _ _ _ =>
      visitFunctionDeclaration componentName path acc
  | VariableDeclarator _ _ =>
      visitVariableDeclarator componentName path acc
  | JSXElement (JSXOpeningElement name attributes) children =>
      if isInsideComponent path componentName
      then pushElement (elementInfo name attributes children) acc
      else acc
  | CallExpression callee arguments =>
      if isInsideComponent path componentName
      then visitEffect callee arguments acc
      else acc
  | _ => acc
  end.

Definition elementsAt (c : string) (p : NodePath)
  : list Element.JSXElementInfo :=
  match pnode p with
  | JSXElement (JSXOpeningElement name attributes) children =>
      if isInsideComponent p c then [elementInfo name attributes children]
      else []
  | _ => []
  end.

Definition statePairsAt (c : string) (p : NodePath) : list StateInfo :=
  match pnode p with
  | VariableDeclarator id init =>
      if isInsideComponent p c then
        match useStatePair id init with
        | Some st => [st]
        | None => []
        end
      else []
  | _ => []
  end.

(** A call of [useEffect] or [React.useEffect] that the scope filter
    lets pass. *)
Definition isEffectCall (c : string) (p : NodePath) : bool :=
  match pnode p with
  | CallExpression callee _ =>
      isInsideComponent p c && isHookCallee callee "useEffect"
  | _ => false
  end.

Definition effectDepsAt (c : string) (p : NodePath) : list string :=
  match pnode p with
  | CallExpression _ arguments =>
      if isEffectCall c p then effectDepNames arguments else []
  | _ => []
  end.

(** The records that the walk over an effect body pushes at one node. *)
Definition apiRecords (n : node) : list Api.ApiInfo :=
  match n with
  | CallExpression callee arguments =>
      match callee with
      | MemberExpression object (Identifier m) _ =>
          if isIdentifierNamed object "axios"
          then [Api.mk axios (Some m) (urlOf arguments)]
          else []
      | _ => []
      end
      ++ (if isIdentifierNamed callee "fetch"
          then [Api.mk fetch None (urlOf arguments)]
          else [])
  | _ => []
  end.

(** The paths of the walk over the body of an effect's callback. *)
Definition effectBodyPaths (arguments : list node) : list NodePath :=
  match effectStatements arguments with
  | Some statements => traverse (File (Program statements))
  | None => []
  end.

Definition apisAt (c : string) (p : NodePath) : list Api.ApiInfo :=
  match pnode p with
  | CallExpression _ arguments =>
      if isEffectCall c p
      then flat_map (fun q => apiRecords (pnode q)) (effectBodyPaths arguments)
      else []
  | _ => []
  end.

Definition isFetch (a : Api.ApiInfo) : bool :=
  match Api.type a with fetch => true | axios => false end.

Definition isAxios (a : Api.ApiInfo) : bool :=
  match Api.type a with axios => true | fetch => false end.

Definition propsAt (c : string) (p : NodePath) : list string :=
  match pnode p with
  | FunctionDeclaration id _ _ =>
      match idName id with
      | Some x => if x =? c then collectPropsFromParams (pnode p) else []
      | None => []
      end
  | VariableDeclarator id init =>
      if isIdentifierNamed id c then
        match init with
        | Some (ArrowFunctionExpression _ _ as f)
        | Some (FunctionExpression _ _ _ as f) => collectPropsFromParams f
        | _ => []
        end
      else []
  | _ => []
  end.

(** The accumulators after the contributions of a list of paths. *)
Definition contribute (c : string) (acc : AnalyzedComponent)
    (paths : list NodePath) : AnalyzedComponent :=
  mkAnalyzed (name acc)
    (elements acc ++ flat_map (elementsAt c) paths)
    (states acc ++ flat_map (statePairsAt c) paths)
    (effects acc || existsb (isEffectCall c) paths)
    (props acc ++ flat_map (propsAt c) paths)
    (usesFetch acc || existsb isFetch (flat_map (apisAt c) paths))
    (usesAxios acc || existsb isAxios (flat_map (apisAt c) paths))
    (apis acc ++ flat_map (apisAt c) paths)
    (effectDeps acc ++ flat_map (effectDepsAt c) paths)
    (eventToSetterMap acc).

(** A record comes from the body of an effect callback of [ast] when a
    node of the walk over that body yields it. *)
Definition FromEffectBody (ast : node) (c : string) (a : Api.ApiInfo)
  : Prop :=
  exists p callee arguments statements q,
    In p (traverse ast) /\
    pnode p = CallExpression callee arguments /\
    isInsideComponent p c = true /\
    isHookCallee callee "useEffect" = true /\
    effectStatements arguments = Some statements /\
    In q (traverse (File (Program statements))) /\
    In a (apiRecords (pnode q)).

(** ** The specification's words

    The scope filter: a node is in scope if it is lexically contained in
    a function declaration named like the component, or in a variable
    binding of that name whose initializer is a function or arrow
    expression. *)

Definition definesComponent (c : string) (n : node) : bool :=
  match n with
  | FunctionDeclaration (Some (Identifier x)) _ _ => x =? c
  | VariableDeclarator (Identifier x) (Some (ArrowFunctionExpression _ _))
  | VariableDeclarator (Identifier x) (Some (FunctionExpression _ _ _)) =>
      x =? c
  | _ => false
  end.

Definition lexicallyInScope (c : string) (p : NodePath) : bool :=
  existsb (definesComponent c) (ancestors p).

(** The calls of a setter in a file, each with the name derived for the
    function around it, whether it lies in the component by the words
    of the specification, and whether the scope filter lets it pass. *)
Definition setterCalls (c setterName : string) (ast : node)
  : list (string * bool * bool) :=
  flat_map
    (fun p =>
       match pnode p with
       | CallExpression (Identifier x) _ =>
           if x =? setterName then
             [ (match getFunctionParent p with
                | Some f => handlerName f
                | None => EmptyString
                end,
                lexicallyInScope c p, isInsideComponent p c) ]
           else []
       | _ => []
       end)
    (traverse ast).

(** The markup nodes of a file, each with its tag, whether it lies in
    the component by the words of the specification, and whether the
    scope filter lets it pass. *)
Definition markupNodes (c : string) (ast : node)
  : list (string * bool * bool) :=
  flat_map
    (fun p =>
       match pnode p with
       | JSXElement (JSXOpeningElement tagName _) _ =>
           [(getJsxName tagName, lexicallyInScope c p, isInsideComponent p c)]
       | _ => []
       end)
    (traverse ast).

(** The calls of [useEffect] or [React.useEffect] in a file, each with
    the names its literal dependency array holds, whether it lies in the
    component by the words of the specification, and whether the scope
    filter lets it pass. *)
Definition effectCalls (c : string) (ast : node)
  : list (list string * bool * bool) :=
  flat_map
    (fun p =>
       match pnode p with
       | CallExpression callee arguments =>
           if isHookCallee callee "useEffect" then
             [ (effectDepNames arguments,
                lexicallyInScope c p, isInsideComponent p c) ]
           else []
       | _ => []
       end)
    (traverse ast).

(** The locator's precedence: a named function declaration, a bare
    identifier, a call whose first argument is a bare identifier, and
    the sentinel otherwise. *)
Definition locatorSpec (decl : node) : string :=
  match decl with
  | FunctionDeclaration (Some (Identifier x)) _ _ => x
  | Identifier x => x
  | CallExpression _ (Identifier x :: _) => x
  | _ => "Anonymous"
  end.

(** The state declarations of the data model, in the shape the code
    accepts: the first two elements of the pattern are identifiers,
    whatever follows them, and the initializer is a call whose callee is
    the identifier [useState] or a member expression of the identifier
    [React] with the identifier [useState] as property, written with a
    dot ([React.useState]) or computed ([React[useState]]): the code
    does not look at [computed]. *)
Inductive StateDeclaration : node -> option node -> StateInfo -> Prop :=
| SD_bare (a b : string) (more : list (option node)) (args : list node) :
    StateDeclaration
      (ArrayPattern (Some (Identifier a) :: Some (Identifier b) :: more))
      (Some (CallExpression (Identifier "useState") args))
      (mkState a b)
| SD_qualified (a b : string) (more : list (option node))
    (args : list node) (computed : bool) :
    StateDeclaration
      (ArrayPattern (Some (Identifier a) :: Some (Identifier b) :: more))
      (Some (CallExpression
               (MemberExpression (Identifier "React") (Identifier "useState")
                  computed) args))
      (mkState a b).

(** ** What the file binds and exports *)

(** A function declaration or a variable binding named [c]. *)
Definition bindsName (c : string) (n : node) : bool :=
  match n with
  | FunctionDeclaration (Some (Identifier x)) _ _ => x =? c
  | VariableDeclarator (Identifier x) _ => x =? c
  | _ => false
  end.

Definition noBindingNamed (c : string) (ast : node) : bool :=
  forallb (fun p => negb (bindsName c (pnode p))) (traverse ast).

(** The declarations of the default exports of the paths, in order. *)
Definition defaultExportsOf (paths : list NodePath) : list node :=
  flat_map
    (fun p =>
       match pnode p with
       | ExportDefaultDeclaration decl => [decl]
       | _ => []
       end)
    paths.

Definition defaultExports (ast : node) : list node :=
  defaultExportsOf (traverse ast).

(** No default export of the file has one of the locator's shapes. *)
Definition defaultExportUnresolved (ast : node) : bool :=
  forallb
    (fun decl =>
       match unwrapDefaultExport decl with
       | Some _ => false
       | None => true
       end)
    (defaultExports ast).

(** The role hints of the data model, and what the [type] attribute of
    a text box may be. *)
Definition roleHints : list string := ["button"; "textbox"; "link"; "img"].

Definition textboxType (props : jsObject propValue) : bool :=
  match getOwn props "type" with
  | None => true
  | Some v =>
      (toLowerCase (jsString v) =? EmptyString)
      || (toLowerCase (jsString v) =? "text")
  end.
(** A path at which no visitor raises: a markup node has an opening
    element, and the function around a call is not named like a member
    of [Object.prototype]. *)
Definition safePath (p : NodePath) : bool :=
  match pnode p with
  | JSXElement (JSXOpeningElement _ _) _ => true
  | JSXElement _ _ => false
  | CallExpression _ _ =>
      match getFunctionParent p with
      | Some f => negb (inObjectPrototype (handlerName f))
      | None => true
      end
  | _ => true
  end.

(** ** What the analyzer keeps of attributes and handlers *)

(** The value [getJsxProps] stores for an attribute value, and the
    identifier it binds, if it is one (the cases of the loop body). *)
Definition storedValue (val : option node) : propValue * option string :=
  match val with
  | None => (PBool true, None)
  | Some (StringLiteral s) => (PString s, None)
  | Some (JSXExpressionContainer expr) => containerValue expr
  | Some _ => (PString "unknown", None)
  end.

(** An attribute that [getJsxProps] reads under the key [k]. *)
Definition namedAttribute (k : string) (attr : node) : bool :=
  match attr with
  | JSXAttribute (JSXIdentifier key) _ => key =? k
  | _ => false
  end.

(** The literal of a [data-testid] attribute. *)
Definition literalTestId (attr : node) : option string :=
  match attr with
  | JSXAttribute (JSXIdentifier key) (Some (StringLiteral s)) =>
      if key =? "data-testid" then Some s else None
  | _ => None
  end.

(** The handler map is well formed against the recorded states: its keys
    are distinct, none is empty or a member of [Object.prototype], and
    every entry is a non-empty list of recorded setters. *)
Definition HandlerMapSound (a : AnalyzedComponent) : Prop :=
  NoDup (map fst (eventToSetterMap a))
  /\ forall h l,
       In (h, l) (eventToSetterMap a) ->
       truthy h = true
       /\ inObjectPrototype h = false
       /\ l <> []
       /\ forall s, In s l -> exists st, In st (states a) /\ setter st = s.

(** Every markup node of the tree has an opening element, as the
    parser builds them. *)
Definition jsxWellFormed (ast : node) : bool :=
  forallb
    (fun p =>
       match pnode p with
       | JSXElement (JSXOpeningElement _ _) _ => true
       | JSXElement _ _ => false
       | _ => true
       end)
    (traverse ast).

(** Paths for the examples: the [return] statement of an arrow
    component [Todos], and a statement of a function [Helper] beside
    it. *)
Definition returnInTodos : NodePath :=
  mkPath (ReturnStatement None)
    [ BlockStatement [ReturnStatement None];
      ArrowFunctionExpression [] (BlockStatement [ReturnStatement None]);
      VariableDeclarator (Identifier "Todos")
        (Some (ArrowFunctionExpression []
                 (BlockStatement [ReturnStatement None]))) ].

Definition markupInHelper : NodePath :=
  mkPath
    (JSXElement (JSXOpeningElement (JSXIdentifier "p") []) [])
    [ ReturnStatement None; BlockStatement [];
      FunctionDeclaration (Some (Identifier "Helper")) [] (BlockStatement []);
      Program [] ].

(** * The earlier analyzer

    The first variant of [analyzeComponent] in the same file: its own
    [getJsxProps], one pass that looks for a default export that is a
    function declaration, and visitors without a scope filter that walk
    that function, or the whole file when there is none. *)

Module Earlier.

(** The fields [key in node] finds on a node: those of every node and
    those of its type, under their Babel names. *)
Definition baseFields : list string :=
  ["type"; "start"; "end"; "loc"; "range"; "extra"; "leadingComments";
   "innerComments"; "trailingComments"].

Definition typeFields (n : node) : list string :=
  match n with
  | File _ => ["program"; "comments"; "tokens"]
  | Program _ => ["body"; "directives"; "sourceType"; "interpreter"]
  | ExportDefaultDeclaration _ => ["declaration"]
  | FunctionDeclaration _ _ _ | FunctionExpression _ _ _ =>
      ["id"; "params"; "body"; "generator"; "async"; "returnType";
       "typeParameters"]
  | ArrowFunctionExpression _ _ =>
      ["params"; "body"; "async"; "expression"; "generator"; "returnType";
       "typeParameters"]
  | ObjectMethod _ _ _ | ClassMethod _ _ _ =>
      ["kind"; "key"; "params"; "body"; "computed"; "static"; "generator";
       "async"; "decorators"; "returnType"; "typeParameters"]
  | VariableDeclaration _ => ["kind"; "declarations"; "declare"]
  | VariableDeclarator _ _ => ["id"; "init"; "definite"]
  | BlockStatement _ => ["body"; "directives"]
  | ExpressionStatement _ => ["expression"]
  | ReturnStatement _ => ["argument"]
  | IfStatement _ _ _ => ["test"; "consequent"; "alternate"]
  | Identifier _ => ["name"; "optional"; "typeAnnotation"; "decorators"]
  | StringLiteral _ | NumericLiteral _ | BooleanLiteral _
  | BigIntLiteral _ => ["value"]
  | NullLiteral => []
  | RegExpLiteral _ _ => ["pattern"; "flags"]
  | TemplateLiteral _ _ => ["quasis"; "expressions"]
  | ArrayPattern _ => ["elements"; "typeAnnotation"; "decorators"]
  | ObjectPattern _ => ["properties"; "typeAnnotation"; "decorators"]
  | ObjectProperty _ _ _ =>
      ["key"; "value"; "computed"; "shorthand"; "decorators"]
  | RestElement _ => ["argument"; "typeAnnotation"; "decorators"]
  | ArrayExpression _ => ["elements"]
  | MemberExpression _ _ _ => ["object"; "property"; "computed"; "optional"]
  | CallExpression _ _ =>
      ["callee"; "arguments"; "optional"; "typeArguments"; "typeParameters"]
  | TSAsExpression _ | TypeCastExpression _ =>
      ["expression"; "typeAnnotation"]
  | JSXElement _ _ =>
      ["openingElement"; "closingElement"; "children"; "selfClosing"]
  | JSXOpeningElement _ _ =>
      ["name"; "attributes"; "selfClosing"; "typeParameters"]
  | JSXAttribute _ _ => ["name"; "value"]
  | JSXSpreadAttribute _ => ["argument"]
  | JSXIdentifier _ => ["name"]
  | JSXMemberExpression _ _ => ["object"; "property"]
  | JSXNamespacedName _ _ => ["namespace"; "name"]
  | JSXText _ => ["value"]
  | JSXExpressionContainer _ => ["expression"]
  | Other _ _ => []
  end.

(** [key in n]. *)
Definition hasField (n : node) (key : string) : bool :=
  existsb (String.eqb key) (baseFields ++ typeFields n).

(** [String(n.value)] when [n.value != null]. *)
Definition valueText (n : node) : option string :=
  match n with
  | StringLiteral value | NumericLiteral value | BigIntLiteral value
  | JSXText value => Some value
  | BooleanLiteral value => Some (jsString (PBool value))
  | ObjectProperty _ _ _ | JSXAttribute _ (Some _) => Some "[object Object]"
  | _ => None
  end.

(** The value stored for [key={expr}], and the identifier it binds. *)
Definition containerValue (expr : node) : propValue * option string :=
  match expr with
  | Identifier x => (PString ("expr:" ++ x), Some x)
  | _ =>
      if hasField expr "value" then
        match valueText expr with
        | Some t => (PString t, None)
        | None => (PString "dynamic", None)
        end
      else (PString "dynamic", None)
  end.

(** One turn of the loop of the earlier [getJsxProps]. *)
Definition jsxAttr (acc : JsxProps) (attr : node) : JsxProps :=
  match attr with
  | JSXAttribute (JSXIdentifier key) val =>
      let '(v, handler) :=
        match val with
        | None => (PBool true, None)
        | Some (StringLiteral s) => (PString s, None)
        | Some (JSXExpressionContainer expr) => containerValue expr
        | Some _ => (PString "unknown", None)
        end in
      mkJsxProps
        (assign (jp_props acc) key v)
        (match val with
         | Some (StringLiteral s) =>
             if key =? "data-testid" then Some s else jp_testId acc
         | _ => jp_testId acc
         end)
        (match handler with
         | Some h =>
             if startsWith key "on" then assign (jp_events acc) key h
             else jp_events acc
         | None => jp_events acc
         end)
  | _ => acc
  end.

Definition getJsxProps (attrs : list node) : JsxProps :=
  fold_left jsxAttr attrs (mkJsxProps [] None []).

(** The record pushed for an element; it has no role hint. *)
Definition elementInfo (name : node) (attributes children : list node)
  : Element.JSXElementInfo :=
  let jp := getJsxProps attributes in
  Element.mk (getJsxName name) (jp_props jp)
    (match find isJSXText children with
     | Some (JSXText value) => Some (trim value)
     | _ => None
     end)
    (jp_testId jp) (jp_events jp) None.

Definition visitJSXElement (path : NodePath) (acc : AnalyzedComponent)
  : result AnalyzedComponent :=
  match pnode path with
  | JSXElement openingElement children =>
      match openingElement with
      | JSXOpeningElement name attributes =>
          Ok (pushElement (elementInfo name attributes children) acc)
      | _ => Throw "TypeError: attrs is not iterable"
      end
  | _ => Ok acc
  end.

Definition visitVariableDeclarator (path : NodePath)
    (acc : AnalyzedComponent) : AnalyzedComponent :=
  match pnode path with
  | VariableDeclarator id init =>
      match useStatePair id init with
      | Some st => pushState st acc
      | None => acc
      end
  | _ => acc
  end.

(** [(n as any).id?.name]. *)
Definition idNameOf (n : node) : option string :=
  match n with
  | FunctionDeclaration id _ _ | FunctionExpression id _ _ => idName id
  | VariableDeclarator (Identifier x) _ => Some x
  | _ => None
  end.

(** The setter rule: the nearest function declaration or variable
    declarator around the call, if [node] is a field of its node. *)
Definition visitSetterCall (path : NodePath) (callee : node)
    (acc : AnalyzedComponent) : result AnalyzedComponent :=
  match callee with
  | Identifier setterName =>
      if existsb (fun s => setter s =? setterName) (states acc) then
        match findParent path
                (fun p => isFunctionDeclaration (pnode p)
                          || isVariableDeclarator (pnode p)) with
        | Some parentFunc =>
            if hasField (pnode parentFunc) "node" then
              match idNameOf (pnode parentFunc) with
              | Some name =>
                  if truthy name then
                    m <- pushSetter name setterName (eventToSetterMap acc) ;;
                    Ok (withEventToSetterMap m acc)
                  else Ok acc
              | None => Ok acc
              end
            else Ok acc
        | None => Ok acc
        end
      else Ok acc
  | _ => Ok acc
  end.

Definition visitCallExpression (path : NodePath) (acc : AnalyzedComponent)
  : result AnalyzedComponent :=
  match pnode path with
  | CallExpression callee arguments =>
      visitSetterCall path callee (visitEffect callee arguments acc)
  | _ => Ok acc
  end.

Definition visit (path : NodePath) (acc : AnalyzedComponent)
  : result AnalyzedComponent :=
  match pnode path with
  | JSXElement _ _ => visitJSXElement path acc
  | VariableDeclarator _ _ => Ok (visitVariableDeclarator path acc)
  | CallExpression _ _ => visitCallExpression path acc
  | _ => Ok acc
  end.

(** The pass over the default exports: [mainFunctionPath] and the
    component's name. *)
Definition exportVisitor (found : option NodePath * string)
    (path : NodePath) : option NodePath * string :=
  match pnode path with
  | ExportDefaultDeclaration decl =>
      if isFunctionDeclaration decl then
        (Some (mkPath decl (pnode path :: ancestors path)),
         match functionDeclarationName decl with
         | Some x => if truthy x then x else "DefaultComponent"
         | None => "DefaultComponent"
         end)
      else found
  | _ => found
  end.

Definition mainFunction (ast : node) : option NodePath * string :=
  fold_left exportVisitor (traverse ast) (None, "Anonymous").

(** [mainFunctionPath.traverse(visitor)] walks what is below the
    function; [traverse(ast, visitor)] walks the file. *)
Definition visited (ast : node) : list NodePath :=
  match fst (mainFunction ast) with
  | Some f => flat_map (walk (pnode f :: ancestors f)) (childNodes (pnode f))
  | None => traverse ast
  end.

Definition analyzeAst (ast : node) : result AnalyzedComponent :=
  visitAll visit (visited ast) (initial (snd (mainFunction ast))).

(** The earlier [analyzeComponent] has no [try]: what reading and
    parsing raise goes to the caller as it is. *)
Definition analyzeComponent (World : Type)
    (read : World -> string -> result string)
    (parser : string -> result node)
    (w : World) (filePath : string) : result AnalyzedComponent :=
  code <- read w filePath ;;
  ast <- parser code ;;
  analyzeAst ast.

(** What one path contributes, for the properties. *)
Definition elementsAt (p : NodePath) : list Element.JSXElementInfo :=
  match pnode p with
  | JSXElement (JSXOpeningElement name attributes) children =>
      [elementInfo name attributes children]
  | _ => []
  end.

Definition statePairsAt (p : NodePath) : list StateInfo :=
  match pnode p with
  | VariableDeclarator id init =>
      match useStatePair id init with
      | Some st => [st]
      | None => []
      end
  | _ => []
  end.

Definition isEffectCall (p : NodePath) : bool :=
  match pnode p with
  | CallExpression callee _ => isHookCallee callee "useEffect"
  | _ => false
  end.

Definition effectDepsAt (p : NodePath) : list string :=
  match pnode p with
  | CallExpression _ arguments =>
      if isEffectCall p then effectDepNames arguments else []
  | _ => []
  end.

Definition apisAt (p : NodePath) : list Api.ApiInfo :=
  match pnode p with
  | CallExpression _ arguments =>
      if isEffectCall p
      then flat_map (fun q => apiRecords (pnode q)) (effectBodyPaths arguments)
      else []
  | _ => []
  end.

Definition contribute (acc : AnalyzedComponent) (paths : list NodePath)
  : AnalyzedComponent :=
  mkAnalyzed (name acc)
    (elements acc ++ flat_map elementsAt paths)
    (states acc ++ flat_map statePairsAt paths)
    (effects acc || existsb isEffectCall paths)
    (props acc)
    (usesFetch acc || existsb isFetch (flat_map apisAt paths))
    (usesAxios acc || existsb isAxios (flat_map apisAt paths))
    (apis acc ++ flat_map apisAt paths)
    (effectDeps acc ++ flat_map effectDepsAt paths)
    (eventToSetterMap acc).

(** No default export of the file is a function declaration. *)
Definition walksWholeFile (ast : node) : bool :=
  forallb (fun decl => negb (isFunctionDeclaration decl)) (defaultExports ast).

End Earlier.

(** * The test generator: escaping and queries

    [escapeForTs] and [chooseQuery] of [src/generateTest.ts]. *)

Module Generator.

Definition backslash : ascii := "092"%char.
Definition backtick : ascii := "096"%char.
Definition dollar : ascii := "036"%char.
Definition lessThan : ascii := "060"%char.

(** A backslash and the character [c]. *)
Definition escaped (c : ascii) : string :=
  String backslash (String c EmptyString).

(** [s.replace(/c/g, by)] for a pattern of one character [c]. *)
Fixpoint replaceAll (c : ascii) (replacement s : string) : string :=
  match s with
  | EmptyString => EmptyString
  | String x rest =>
      if Ascii.eqb x c then replacement ++ replaceAll c replacement rest
      else String x (replaceAll c replacement rest)
  end.

(** [s] starts with [pattern], letters compared without case (the [i]
    flag, on ASCII). *)
Fixpoint startsWithIgnoreCase (s pattern : string) : bool :=
  match pattern, s with
  | EmptyString, _ => true
  | String _ _, EmptyString => false
  | String p ps, String c cs =>
      Ascii.eqb (lowerAscii c) (lowerAscii p) && startsWithIgnoreCase cs ps
  end.

(** [s.replace(/<\/(script)>/gi, "<\\/$1")]: every closing script tag
    becomes [<], a backslash, [/] and the matched letters; the
    replacement text ends there, so the [>] of the tag is not written.
    [pending] counts the characters of a match that are still to copy
    before its [>]; a match holds no [<], so the next match starts
    after it. *)
Fixpoint replaceCloseScript (pending : option nat) (s : string) : string :=
  match s with
  | EmptyString => EmptyString
  | String c rest =>
      match pending with
      | Some 0 => replaceCloseScript None rest
      | Some (S k) => String c (replaceCloseScript (Some k) rest)
      | None =>
          if Ascii.eqb c lessThan && startsWithIgnoreCase rest "/script>"
          then String c (String backslash (replaceCloseScript (Some 7) rest))
          else String c (replaceCloseScript None rest)
      end
  end.

Definition escapeForTs (s : string) : string :=
  replaceCloseScript None
    (replaceAll dollar (escaped dollar)
       (replaceAll backtick (escaped backtick)
          (replaceAll backslash (escaped backslash) s))).

(** [el.roleHint === role]. *)
Definition roleIs (el : Element.JSXElementInfo) (role : string) : bool :=
  match Element.roleHint el with
  | Some r => r =? role
  | None => false
  end.

(** A string that is present and not empty. *)
Definition present (s : option string) : bool :=
  match s with
  | Some t => truthy t
  | None => false
  end.

Definition orEmpty (s : option string) : string :=
  match s with Some t => t | None => EmptyString end.

(** The [name] option of a query by role. *)
Definition namePart (el : Element.JSXElementInfo) : string :=
  if present (Element.text el)
  then ", { name: /" ++ escapeForTs (orEmpty (Element.text el)) ++ "/i }"
  else EmptyString.

Definition fallbackQuery : string := "screen.getByText(/.+/)".

Definition chooseQuery (el : Element.JSXElementInfo) : string :=
  if roleIs el "button" then
    "screen.getByRole(" ++ quote ++ "button" ++ quote ++ namePart el ++ ")"
  else if roleIs el "textbox" then
    "screen.getByRole(" ++ quote ++ "textbox" ++ quote ++ ")"
  else if roleIs el "link" then
    "screen.getByRole(" ++ quote ++ "link" ++ quote ++ namePart el ++ ")"
  else if present (Element.testId el) then
    "screen.getByTestId(" ++ quote
      ++ escapeForTs (orEmpty (Element.testId el)) ++ quote ++ ")"
  else if present (Element.text el) then
    "screen.getByText(/" ++ escapeForTs (orEmpty (Element.text el)) ++ "/i)"
  else fallbackQuery.

(** Reading the escapes back, as a string or regular expression
    literal does for them: a backslash stands for the character after
    it. *)
Fixpoint readEscapes (s : string) : string :=
  match s with
  | EmptyString => EmptyString
  | String c rest =>
      if Ascii.eqb c backslash then
        match rest with
        | String d rest' => String d (readEscapes rest')
        | EmptyString => String c EmptyString
        end
      else String c (readEscapes rest)
  end.

(** The text holds no closing script tag, in any case of letters. *)
Fixpoint noCloseScript (s : string) : bool :=
  match s with
  | EmptyString => true
  | String c rest =>
      negb (Ascii.eqb c lessThan && startsWithIgnoreCase rest "/script>")
      && noCloseScript rest
  end.

Definition special (c : ascii) : bool :=
  Ascii.eqb c backslash || Ascii.eqb c backtick || Ascii.eqb c dollar.

(** The three one-character replacements in one pass. *)
Fixpoint escapeChars (s : string) : string :=
  match s with
  | EmptyString => EmptyString
  | String c rest =>
      if special c then String backslash (String c (escapeChars rest))
      else String c (escapeChars rest)
  end.

(** A text without [\], a backtick, [$] and [<]. *)
Fixpoint plain (s : string) : bool :=
  match s with
  | EmptyString => true
  | String c rest =>
      negb (special c) && negb (Ascii.eqb c lessThan) && plain rest
  end.

End Generator.

(** * Paths of the sample files *)


(** A call of a setter in the handler [addTodo] of the README
    component: the path of the call of [setInput], taken from the walk,
    the path of the arrow function around it, and that of the
    declarator that binds the function. *)
Definition isSetInputInAddTodo (p : NodePath) : bool :=
  match pnode p, getFunctionParent p with
  | CallExpression (Identifier x) _, Some f =>
      (x =? "setInput") && (handlerName f =? "addTodo")
  | _, _ => false
  end.

Definition setInputInAddTodo : NodePath :=
  match find isSetInputInAddTodo (traverse Samples.todos) with
  | Some p => p
  | None => mkPath NullLiteral []
  end.

Definition addTodoFunction : NodePath :=
  match getFunctionParent setInputInAddTodo with
  | Some f => f
  | None => mkPath NullLiteral []
  end.

Definition addTodoDeclarator : NodePath :=
  match parentPath addTodoFunction with
  | Some d => d
  | None => mkPath NullLiteral []
  end.

(** [declarator.init]. *)
Definition declaratorInit (n : node) : option node :=
  match n with VariableDeclarator _ init => init | _ => None end.

(** * The accumulators on the heap

    The arrays [elements], [states], [props], [effectDeps] and
    [analyzedAPIs] and the object [eventToSetterMap] are allocated by
    each call of [analyzeComponent] (l. 395-403); the visitors mutate
    them in place, and the object that is returned holds them by
    reference (l. 550-561). In the analysis above the accumulator is a
    value handed from visitor to visitor. Here the heap is explicit: a
    list of cells addressed by position, which a call extends by the
    cells it allocates and on which its visitors write. What a call
    leaves on the heap is there for the next call. *)

Module Heap.

Inductive cell : Type :=
| Elements (l : list Element.JSXElementInfo)
| States (l : list StateInfo)
| Strings (l : list string)
| HandlerMap (m : jsObject (list string))
| Apis (l : list Api.ApiInfo).

Definition heap : Type := list cell.

Definition address : Type := nat.

(** [[]] and [{}]: a new cell at the end of the heap. *)
Definition alloc (c : cell) (h : heap) : address * heap :=
  (List.length h, h ++ [c]).

Definition read (h : heap) (a : address) : option cell := nth_error h a.

Fixpoint write (h : heap) (a : address) (c : cell) : heap :=
  match h, a with
  | [], _ => []
  | _ :: rest, O => c :: rest
  | x :: rest, S a' => x :: write rest a' c
  end.

(** The local variables of one call of [analyzeComponent]: the name, the
    references to the arrays and to the object, and the three flags. The
    object that the call returns has the same shape: the name, the
    references, and the values of the flags. *)
Record Frame : Type := mkFrame {
  componentName : string;
  elementsRef : address;
  statesRef : address;
  propsRef : address;
  effectDepsRef : address;
  eventToSetterMapRef : address;
  effectsVar : bool;
  usesFetchVar : bool;
  usesAxiosVar : bool;
  analyzedAPIsRef : address
}.

(** The declarations of l. 395-403, in their order. *)
Definition allocate (name : string) (h : heap) : Frame * heap :=
  let '(elements, h) := alloc (Elements []) h in
  let '(states, h) := alloc (States []) h in
  let '(props, h) := alloc (Strings []) h in
  let '(effectDeps, h) := alloc (Strings []) h in
  let '(eventToSetterMap, h) := alloc (HandlerMap []) h in
  let '(analyzedAPIs, h) := alloc (Apis []) h in
  (mkFrame name elements states props effectDeps eventToSetterMap
     false false false analyzedAPIs, h).

(** What the variables of a frame hold: the value that the visitors of
    the analysis above hand on. [None] for a reference to no cell or to
    a cell of another kind. *)
Definition load (h : heap) (f : Frame) : option AnalyzedComponent :=
  match read h (elementsRef f), read h (statesRef f), read h (propsRef f),
        read h (effectDepsRef f), read h (eventToSetterMapRef f),
        read h (analyzedAPIsRef f) with
  | Some (Elements es), Some (States ss), Some (Strings ps),
    Some (Strings ds), Some (HandlerMap m), Some (Apis calls) =>
      Some (mkAnalyzed (componentName f) es ss (effectsVar f) ps
              (usesFetchVar f) (usesAxiosVar f) calls ds m)
  | _, _, _, _, _, _ => None
  end.

(** The pushes and assignments of a visitor, done on the cells of the
    frame and on its flags; the references stay. *)
Definition store (f : Frame) (a : AnalyzedComponent) (h : heap)
  : Frame * heap :=
  let h := write h (elementsRef f) (Elements (elements a)) in
  let h := write h (statesRef f) (States (states a)) in
  let h := write h (propsRef f) (Strings (props a)) in
  let h := write h (effectDepsRef f) (Strings (effectDeps a)) in
  let h := write h (eventToSetterMapRef f)
             (HandlerMap (eventToSetterMap a)) in
  let h := write h (analyzedAPIsRef f) (Apis (apis a)) in
  (mkFrame (componentName f) (elementsRef f) (statesRef f) (propsRef f)
     (effectDepsRef f) (eventToSetterMapRef f)
     (effects a) (usesFetch a) (usesAxios a) (analyzedAPIsRef f), h).

(** One visitor call. When the visitor raises, what it had pushed before
    stays on the heap: that is the part of the visit without the handler
    map, since the [push] on the map is the last statement of a
    visitor and the markup visitor raises before its own. *)
Definition visitInPlace (path : NodePath) (f : Frame) (h : heap)
  : result Frame * heap :=
  match load h f with
  | None => (Throw "ReferenceError", h)
  | Some acc =>
      match visit (componentName f) path acc with
      | Ok acc' => let '(f', h') := store f acc' h in (Ok f', h')
      | Throw message =>
          (Throw message,
           snd (store f (collect (componentName f) acc path) h))
      end
  end.

Fixpoint visitAllInPlace (paths : list NodePath) (f : Frame) (h : heap)
  : result Frame * heap :=
  match paths with
  | [] => (Ok f, h)
  | p :: rest =>
      match visitInPlace p f h with
      | (Ok f1, h1) => visitAllInPlace rest f1 h1
      | (Throw message, h1) => (Throw message, h1)
      end
  end.

(** The analysis of a parsed file on a heap: the object it returns, or
    the error it raises, and the heap it leaves. *)
Definition analyzeAstInPlace (ast : node) (h : heap) : result Frame * heap :=
  let name := findComponentName ast in
  let '(f, h0) := allocate name h in
  visitAllInPlace (traverse ast) f h0.

Section AnalyzeComponent.

Variable World : Type.
Variable readFileSync : World -> string -> result string.
Variable parse : string -> string -> result node.

Definition analyzeComponentInPlace (w : World) (filePath : string)
    (h : heap) : result Frame * heap :=
  match readFileSync w filePath with
  | Throw message =>
      (Throw ("Failed to read file " ++ quote ++ filePath ++ quote ++ ": "
              ++ message), h)
  | Ok code =>
      match parse code filePath with
      | Throw message =>
          (Throw ("Failed to parse " ++ quote ++ filePath ++ quote ++ ": "
                  ++ message), h)
      | Ok ast => analyzeAstInPlace ast h
      end
  end.

End AnalyzeComponent.

(** The cells of a frame that holds [a], and the frame whose cells start
    at [base]. *)
Definition cells (a : AnalyzedComponent) : list cell :=
  [ Elements (elements a); States (states a); Strings (props a);
    Strings (effectDeps a); HandlerMap (eventToSetterMap a);
    Apis (apis a) ].

Definition frameAt (base : address) (a : AnalyzedComponent) : Frame :=
  mkFrame (name a) (base + 0) (base + 1) (base + 2) (base + 3) (base + 4)
    (effects a) (usesFetch a) (usesAxios a) (base + 5).

End Heap.

(** * The errors of the library

    [traverse] of [@babel/traverse] does work of its own before and
    between the calls of the visitors: it crawls the scopes of the tree
    it is given and sets up each path it reaches, and it can raise there
    (a declaration it takes for a duplicate, a tree too deep for the
    stack). The analysis above is that of a traversal in which the
    library raises nothing. Here the part of the library is taken as it
    comes: [crawl] is what it does with the root before the first
    visitor runs, [enter] what it does on reaching a path, each either
    done or a raised error. *)

Module Babel.

Section Traverse.

Variable crawl : node -> result unit.
Variable enter : NodePath -> result unit.

Fixpoint visitEach {A : Type} (v : NodePath -> A -> result A)
    (paths : list NodePath) (acc : A) : result A :=
  match paths with
  | [] => Ok acc
  | p :: rest =>
      entered <- enter p ;;
      acc1 <- v p acc ;;
      visitEach v rest acc1
  end.

(** [traverse(root, visitor)]. *)
Definition traverseTree {A : Type} (root : node)
    (v : NodePath -> A -> result A) (acc : A) : result A :=
  crawled <- crawl root ;;
  visitEach v (traverse root) acc.

(** The library raises [message]. *)
Definition raises (message : string) : Prop :=
  (exists root, crawl root = Throw message)
  \/ exists p, enter p = Throw message.

Definition findComponentName (ast : node) : result string :=
  traverseTree ast (fun p componentName => Ok (nameVisitor componentName p))
    "Anonymous".

Definition visitEffect (callee : node) (arguments : list node)
    (acc : AnalyzedComponent) : result AnalyzedComponent :=
  if isHookCallee callee "useEffect" then
    let acc1 := markEffect (effectDepNames arguments) acc in
    match effectStatements arguments with
    | Some statements =>
        traverseTree (File (Program statements))
          (fun apiPath a => Ok (apiVisitor a apiPath)) acc1
    | None => Ok acc1
    end
  else Ok acc.

Definition visitCallExpression (componentName : string)
    (path : NodePath) (acc : AnalyzedComponent) : result AnalyzedComponent :=
  match pnode path with
  | CallExpression callee arguments =>
      if negb (isInsideComponent path componentName) then Ok acc
      else
        acc1 <- visitEffect callee arguments acc ;;
        visitSetterCall path callee acc1
  | _ => Ok acc
  end.

Definition visit (componentName : string) (path : NodePath)
    (acc : AnalyzedComponent) : result AnalyzedComponent :=
  match pnode path with
  | FunctionDeclaration _ _ _ =>
      Ok (visitFunctionDeclaration componentName path acc)
  | VariableDeclarator _ _ =>
      Ok (visitVariableDeclarator componentName path acc)
  | JSXElement _ _ => visitJSXElement componentName path acc
  | CallExpression _ _ => visitCallExpression componentName path acc
  | _ => Ok acc
  end.

Definition analyzeAst (ast : node) : result AnalyzedComponent :=
  componentName <- findComponentName ast ;;
  traverseTree ast (visit componentName) (initial componentName).

End Traverse.

(** A library that raises nothing, and one that refuses a tree. *)
Definition quiet {A : Type} (x : A) : result unit := Ok tt.

Definition duplicateDeclaration : string :=
  "TypeError: Duplicate declaration".

Definition refuses {A : Type} (x : A) : result unit :=
  Throw duplicateDeclaration.

End Babel.

(** ** Proof automation *)

Ltac tidy :=
  simpl; rewrite <- ?app_assoc, ?app_nil_r, ?orb_false_r, ?orb_true_r;
  try reflexivity.

Ltac break_match :=
  match goal with
  | |- context [negb ?b] => destruct b
  | |- context [?a && _] => destruct a
  | |- context [match ?x with _ => _ end] => destruct x
  end.

Ltac by_cases := tidy; repeat (break_match; tidy).

(** * Properties *)

(** *** Structural facts about the traversal *)

Lemma list_all_Forall (A : Type) (P : A -> Prop) (l : list A) :
  list_all A P l -> Forall P l.
Proof. induction 1; constructor; assumption. Qed.

Lemma option_all_Forall (P : node -> Prop) (o : option node) :
  option_all node P o -> Forall P (optNode o).
Proof. destruct 1; simpl; repeat constructor; assumption. Qed.

Lemma list_option_all_Forall (P : node -> Prop) (l : list (option node)) :
  list_all (option node) (option_all node P) l -> Forall P (optNodes l).
Proof.
  induction 1 as [|o Ho l _ IH]; simpl.
  - constructor.
  - apply Forall_app; split; [now apply option_all_Forall | exact IH].
Qed.

(** Induction on a tree through [childNodes]. *)
Lemma node_children_ind (P : node -> Prop) :
  (forall n, Forall P (childNodes n) -> P n) -> forall n, P n.
Proof.
  intros step.
  induction n; apply step; simpl;
    repeat match goal with
    | H : list_all node _ _ |- _ => apply list_all_Forall in H
    | H : option_all node _ _ |- _ => apply option_all_Forall in H
    | H : list_all (option node) _ _ |- _ => apply list_option_all_Forall in H
    end;
    repeat first
      [ assumption
      | apply Forall_nil
      | apply Forall_cons
      | apply Forall_app; split ].
Qed.

Lemma flat_map_optNode (B : Type) (f : node -> list B) (o : option node) :
  flat_map f (optNode o) = match o with Some c => f c | None => [] end.
Proof. destruct o; simpl; [apply app_nil_r | reflexivity]. Qed.

Lemma flat_map_optNodes (B : Type) (f : node -> list B)
    (l : list (option node)) :
  flat_map f (optNodes l)
  = flat_map (fun o => match o with Some c => f c | None => [] end) l.
Proof.
  unfold optNodes. induction l as [|o l IH]; simpl; [reflexivity|].
  rewrite flat_map_app, flat_map_optNode, IH. reflexivity.
Qed.

(** [walk] is the pre-order listing over [childNodes]. *)
Lemma walk_eq (anc : list node) (n : node) :
  walk anc n = mkPath n anc :: flat_map (walk (n :: anc)) (childNodes n).
Proof.
  destruct n; simpl; f_equal;
    rewrite ?flat_map_app, ?flat_map_optNode, ?flat_map_optNodes; simpl;
    rewrite ?app_nil_r; reflexivity.
Qed.

Lemma in_walk_self (anc : list node) (n : node) :
  In (mkPath n anc) (walk anc n).
Proof. rewrite walk_eq. now left. Qed.

Lemma in_walk_child (anc : list node) (n ch : node) (p : NodePath) :
  In ch (childNodes n) -> In p (walk (n :: anc) ch) -> In p (walk anc n).
Proof.
  intros Hch Hp. rewrite walk_eq. right.
  apply in_flat_map. exists ch. split; assumption.
Qed.

(** Every parent on the chain of a path of the walk is a node of the
    walk, or one of the parents the walk started with. *)
Lemma walk_ancestors (n : node) :
  forall anc p a,
    In p (walk anc n) -> In a (ancestors p) ->
    In a anc \/ exists q, In q (walk anc n) /\ pnode q = a.
Proof.
  induction n as [n IH] using node_children_ind.
  intros anc p a Hp Ha.
  rewrite walk_eq in Hp. destruct Hp as [<- | Hp].
  - left. exact Ha.
  - apply in_flat_map in Hp. destruct Hp as [ch [Hch Hp]].
    rewrite Forall_forall in IH.
    destruct (IH ch Hch (n :: anc) p a Hp Ha) as [[<- | Hin] | [q [Hq Hqa]]].
    + right. exists (mkPath n anc). split; [apply in_walk_self | reflexivity].
    + left. exact Hin.
    + right. exists q. split; [|exact Hqa].
      eapply in_walk_child; eassumption.
Qed.

Lemma traverse_ancestors (root : node) (p : NodePath) (a : node) :
  In p (traverse root) -> In a (ancestors p) ->
  exists q, In q (traverse root) /\ pnode q = a.
Proof.
  unfold traverse. intros Hp Ha.
  apply in_flat_map in Hp. destruct Hp as [ch [Hch Hp]].
  destruct (walk_ancestors ch [] p a Hp Ha) as [[] | [q [Hq Hqa]]].
  exists q. split; [|exact Hqa].
  apply in_flat_map. exists ch. split; assumption.
Qed.

(** *** [findParent] *)

Lemma findParentFrom_Some (cb : NodePath -> bool) (anc : list node)
    (q : NodePath) :
  findParentFrom cb anc = Some q -> In (pnode q) anc /\ cb q = true.
Proof.
  induction anc as [|n rest IH]; simpl; [discriminate|].
  destruct (cb (mkPath n rest)) eqn:E.
  - intros [= <-]. split; [now left | exact E].
  - intros H. destruct (IH H). split; [now right | assumption].
Qed.

(** The filter looks at the nearest enclosing function and at the
    nearest enclosing variable declarator only. *)
Lemma isInsideComponent_nearest (p : NodePath) (c : string) :
  isInsideComponent p c = true <->
  (exists f x,
      getFunctionParent p = Some f /\
      functionDeclarationName (pnode f) = Some x /\ (x =? c) = true)
  \/ (exists init rest,
        findParent p (fun q => isVariableDeclarator (pnode q))
        = Some (mkPath (VariableDeclarator (Identifier c) init) rest)).
Proof.
  unfold isInsideComponent. split.
  - destruct (getFunctionParent p) as [f|] eqn:Ef.
    + destruct (functionDeclarationName (pnode f)) as [x|] eqn:Ex.
      * destruct (x =? c) eqn:Exc; [intros _; left; eauto|].
        destruct (findParent p _) as [[v va]|]; [|discriminate].
        destruct v; try discriminate.
        match goal with
        | |- context [match ?n with _ => _ end] =>
            destruct n; try discriminate
        end.
        intros H. apply String.eqb_eq in H. subst. right. eauto.
      * destruct (findParent p _) as [[v va]|]; [|discriminate].
        destruct v; try discriminate.
        match goal with
        | |- context [match ?n with _ => _ end] =>
            destruct n; try discriminate
        end.
        intros H. apply String.eqb_eq in H. subst. right. eauto.
    + destruct (findParent p _) as [[v va]|]; [|discriminate].
      destruct v; try discriminate.
      match goal with
      | |- context [match ?n with _ => _ end] =>
          destruct n; try discriminate
      end.
      intros H. apply String.eqb_eq in H. subst. right. eauto.
  - intros [[f [x [-> [-> ->]]]] | [init [rest ->]]]; [reflexivity|].
    rewrite String.eqb_refl.
    repeat match goal with
           | |- context [match ?s with _ => _ end] => destruct s
           end; reflexivity.
Qed.

Lemma isInsideComponent_binds (p : NodePath) (c : string) :
  isInsideComponent p c = true -> existsb (bindsName c) (ancestors p) = true.
Proof.
  intros H. apply existsb_exists.
  apply isInsideComponent_nearest in H.
  destruct H as [[f [x [Hf [Hx Hxc]]]] | [init [rest Hd]]].
  - apply findParentFrom_Some in Hf. destruct Hf as [Hin _].
    exists (pnode f). split; [exact Hin|].
    destruct (pnode f); try discriminate. simpl in Hx.
    unfold idName in Hx.
    repeat match type of Hx with
           | context [match ?o with _ => _ end] =>
               destruct o; try discriminate
           end.
    injection Hx as ->. exact Hxc.
  - apply findParentFrom_Some in Hd. destruct Hd as [Hin _].
    eexists. split; [exact Hin|]. simpl. apply String.eqb_refl.
Qed.

(** *** The accumulators as sums of contributions *)

Lemma withEventToSetterMap_same (a : AnalyzedComponent) :
  withEventToSetterMap (eventToSetterMap a) a = a.
Proof. destruct a; reflexivity. Qed.

Lemma apiVisitor_eq (acc : AnalyzedComponent) (q : NodePath) :
  apiVisitor acc q
  = mkAnalyzed (name acc) (elements acc) (states acc) (effects acc)
      (props acc)
      (usesFetch acc || existsb isFetch (apiRecords (pnode q)))
      (usesAxios acc || existsb isAxios (apiRecords (pnode q)))
      (apis acc ++ apiRecords (pnode q))
      (effectDeps acc) (eventToSetterMap acc).
Proof.
  destruct acc. unfold apiVisitor, apiRecords, pushAxios, pushFetch,
    isIdentifierNamed.
  by_cases.
Qed.

Lemma fold_apiVisitor (qs : list NodePath) :
  forall acc,
    fold_left apiVisitor qs acc
    = mkAnalyzed (name acc) (elements acc) (states acc) (effects acc)
        (props acc)
        (usesFetch acc
         || existsb isFetch (flat_map (fun q => apiRecords (pnode q)) qs))
        (usesAxios acc
         || existsb isAxios (flat_map (fun q => apiRecords (pnode q)) qs))
        (apis acc ++ flat_map (fun q => apiRecords (pnode q)) qs)
        (effectDeps acc) (eventToSetterMap acc).
Proof.
  induction qs as [|q qs IH]; intros acc; simpl.
  - destruct acc; simpl. rewrite ?app_nil_r, ?orb_false_r. reflexivity.
  - rewrite IH, apiVisitor_eq. simpl.
    rewrite !existsb_app, !orb_assoc, app_assoc. reflexivity.
Qed.

Lemma collect_eq (c : string) (acc : AnalyzedComponent) (p : NodePath) :
  collect c acc p = contribute c acc [p].
Proof.
  destruct acc, p as [n anc]. unfold collect, contribute. simpl.
  unfold elementsAt, statePairsAt, effectDepsAt, apisAt, propsAt,
    isEffectCall, visitFunctionDeclaration, visitVariableDeclarator,
    visitEffect, functionDeclarationName, effectBodyPaths.
  destruct n; tidy.
  - (* FunctionDeclaration *)
    unfold pushProps. by_cases.
  - (* VariableDeclarator *)
    unfold pushProps, pushState. by_cases.
  - (* CallExpression *)
    by_cases; rewrite fold_apiVisitor; unfold markEffect; by_cases.
  - (* JSXElement *)
    unfold pushElement. by_cases.
Qed.

Lemma contribute_nil (c : string) (acc : AnalyzedComponent) :
  contribute c acc [] = acc.
Proof. destruct acc. unfold contribute. tidy. Qed.

Lemma contribute_app (c : string) (acc : AnalyzedComponent)
    (ps qs : list NodePath) :
  contribute c (contribute c acc ps) qs = contribute c acc (ps ++ qs).
Proof.
  unfold contribute. simpl.
  rewrite !flat_map_app, !existsb_app, !app_assoc, !orb_assoc.
  reflexivity.
Qed.

Lemma fold_collect (c : string) (ps : list NodePath) :
  forall acc, fold_left (collect c) ps acc = contribute c acc ps.
Proof.
  induction ps as [|p ps IH]; intros acc; simpl.
  - symmetry. apply contribute_nil.
  - rewrite IH, collect_eq, contribute_app. reflexivity.
Qed.

Lemma contribute_withEventToSetterMap (c : string) (m : jsObject (list string))
    (acc : AnalyzedComponent) (ps : list NodePath) :
  contribute c (withEventToSetterMap m acc) ps
  = withEventToSetterMap m (contribute c acc ps).
Proof. reflexivity. Qed.

Lemma withEventToSetterMap_twice (m m' : jsObject (list string))
    (a : AnalyzedComponent) :
  withEventToSetterMap m (withEventToSetterMap m' a)
  = withEventToSetterMap m a.
Proof. reflexivity. Qed.

(** A visit that returns has done what [collect] does, and may have
    changed the handler map. *)
Lemma visit_collect (c : string) (p : NodePath)
    (acc acc' : AnalyzedComponent) :
  visit c p acc = Ok acc' ->
  exists m, acc' = withEventToSetterMap m (collect c acc p).
Proof.
  unfold visit, collect, visitJSXElement, visitCallExpression,
    visitSetterCall.
  destruct (pnode p) eqn:E;
    try (intros [= <-]; eexists; symmetry;
         apply withEventToSetterMap_same).
  - (* CallExpression *)
    destruct (isInsideComponent p c); simpl;
      [|intros [= <-]; eexists; symmetry; apply withEventToSetterMap_same].
    set (acc1 := visitEffect _ _ acc).
    assert (Hsame : forall a, Ok acc1 = Ok a ->
              exists m, a = withEventToSetterMap m acc1).
    { intros a [= <-]. eexists. symmetry.
      apply withEventToSetterMap_same. }
    destruct n; try apply Hsame.
    destruct (existsb _ (states acc1)); [|apply Hsame].
    destruct (getFunctionParent p); [|apply Hsame].
    destruct (truthy _); [|apply Hsame].
    destruct (pushSetter _ _ _) as [m|]; simpl; [|discriminate].
    intros [= <-]. exists m. reflexivity.
  - (* JSXElement *)
    destruct n; destruct (isInsideComponent p c); simpl;
      try discriminate;
      intros [= <-]; eexists; symmetry; apply withEventToSetterMap_same.
Qed.

Lemma visitAll_collect (c : string) (ps : list NodePath) :
  forall acc acc',
    visitAll (visit c) ps acc = Ok acc' ->
    exists m, acc' = withEventToSetterMap m (contribute c acc ps).
Proof.
  induction ps as [|p ps IH]; intros acc acc'; simpl.
  - intros [= <-]. exists (eventToSetterMap acc).
    rewrite contribute_nil. symmetry. apply withEventToSetterMap_same.
  - destruct (visit c p acc) as [acc1|] eqn:Ev; simpl; [|discriminate].
    intros Hrest.
    apply visit_collect in Ev. destruct Ev as [m1 ->].
    apply IH in Hrest. destruct Hrest as [m ->].
    exists m.
    rewrite contribute_withEventToSetterMap, withEventToSetterMap_twice.
    rewrite collect_eq, contribute_app. reflexivity.
Qed.

(** *** When the analysis returns *)

Lemma pushSetter_returns (handler setterName : string)
    (map : jsObject (list string)) :
  inObjectPrototype handler = false ->
  exists m, pushSetter handler setterName map = Ok m.
Proof.
  unfold pushSetter. intros ->. destruct (getOwn map handler); eauto.
Qed.

Lemma visit_returns (c : string) (p : NodePath) (acc : AnalyzedComponent) :
  safePath p = true -> exists acc', visit c p acc = Ok acc'.
Proof.
  unfold safePath, visit, visitJSXElement, visitCallExpression,
    visitSetterCall.
  destruct (pnode p); eauto.
  - (* CallExpression *)
    intros Hs. destruct (isInsideComponent p c); simpl; eauto.
    match goal with
    | |- context [match ?callee with Identifier _ => _ | _ => _ end] =>
        destruct callee; eauto
    end.
    destruct (existsb _ _); eauto.
    destruct (getFunctionParent p) as [f|]; eauto.
    destruct (truthy _); eauto.
    apply negb_true_iff in Hs.
    match goal with
    | |- context [pushSetter ?h ?s ?m] =>
        destruct (pushSetter_returns h s m Hs) as [m' ->]
    end.
    simpl. eauto.
  - (* JSXElement *)
    match goal with
    | |- context [match ?o with JSXOpeningElement _ _ => _ | _ => _ end] =>
        destruct o; try discriminate
    end.
    destruct (isInsideComponent p c); simpl; eauto.
Qed.

Lemma visitAll_returns (c : string) (ps : list NodePath) :
  forallb safePath ps = true ->
  forall acc, exists acc', visitAll (visit c) ps acc = Ok acc'.
Proof.
  induction ps as [|p ps IH]; simpl; intros H acc; eauto.
  apply andb_true_iff in H. destruct H as [Hp Hps].
  destruct (visit_returns c p acc Hp) as [acc1 ->]. simpl.
  apply IH. exact Hps.
Qed.

(** The analysis of a tree returns a result when every markup node has
    an opening element and no function around a call is named like a
    member of [Object.prototype]. *)
Lemma analyzeAst_returns (ast : node) :
  forallb safePath (traverse ast) = true ->
  exists r, analyzeAst ast = Ok r.
Proof. intros H. apply visitAll_returns. exact H. Qed.

(** The result of the analysis, but for the handler map: the
    contributions of the paths of the file, in the order of the walk. *)
Lemma analyzeAst_contribute (ast : node) (r : AnalyzedComponent) :
  analyzeAst ast = Ok r ->
  exists m,
    r = withEventToSetterMap m
          (contribute (findComponentName ast)
             (initial (findComponentName ast)) (traverse ast)).
Proof. unfold analyzeAst. apply visitAll_collect. Qed.

Lemma analyzeAst_name (ast : node) (r : AnalyzedComponent) :
  analyzeAst ast = Ok r -> name r = findComponentName ast.
Proof.
  intros H. apply analyzeAst_contribute in H. destruct H as [m ->].
  reflexivity.
Qed.

(** ** The sample files *)

Example analyze_todos : analyzeAst Samples.todos = Ok Expected.todos.
Proof. reflexivity. Qed.

Example analyze_users : analyzeAst Samples.users = Ok Expected.users.
Proof. reflexivity. Qed.

Example analyze_three : analyzeAst Samples.three = Ok Expected.three.
Proof. reflexivity. Qed.

Example analyze_loader : analyzeAst Samples.loader = Ok Expected.loader.
Proof. reflexivity. Qed.

Example analyze_loaderNoEffect :
  analyzeAst Samples.loaderNoEffect = Ok Expected.loaderNoEffect.
Proof. reflexivity. Qed.

Example analyze_counter :
  analyzeAst (Samples.counter "increment") = Ok Expected.counter.
Proof. reflexivity. Qed.

Example analyze_anonymous :
  analyzeAst Samples.anonymous = Ok (initial "Anonymous").
Proof. reflexivity. Qed.

(** ** State declarations *)

Lemma isIdentifierNamed_true (n : node) (x : string) :
  isIdentifierNamed n x = true <-> n = Identifier x.
Proof.
  split.
  - destruct n; simpl; try discriminate.
    intros H. apply String.eqb_eq in H. now subst.
  - intros ->. simpl. apply String.eqb_refl.
Qed.

Lemma isHookCallee_true (callee : node) (hook : string) :
  isHookCallee callee hook = true <->
  callee = Identifier hook
  \/ exists computed,
       callee = MemberExpression (Identifier "React") (Identifier hook)
                  computed.
Proof.
  unfold isHookCallee. rewrite orb_true_iff, isIdentifierNamed_true.
  split; intros [H | H]; auto.
  - right. destruct callee; try discriminate.
    apply andb_true_iff in H. destruct H as [H1 H2].
    apply isIdentifierNamed_true in H1, H2. subst. eauto.
  - right. destruct H as [computed ->]. simpl.
    now rewrite String.eqb_refl.
Qed.

(** The rule of the declarator visitor fires on the state declarations
    and on nothing else. *)
Lemma useStatePair_spec (id : node) (init : option node) (st : StateInfo) :
  useStatePair id init = Some st <-> StateDeclaration id init st.
Proof.
  split.
  - unfold useStatePair.
    destruct id; try discriminate.
    destruct init as [init|]; [destruct init|]; try discriminate.
    destruct (isHookCallee _ _) eqn:Eh; [|discriminate].
    match goal with
    | |- context [nth_error ?l 0] => destruct l as [|e1 [|e2 more]]
    end; simpl; try discriminate;
      destruct e1 as [e1|]; try discriminate;
      destruct e1; try discriminate.
    destruct e2 as [e2|]; try discriminate.
    destruct e2; try discriminate.
    intros [= <-].
    apply isHookCallee_true in Eh.
    destruct Eh as [-> | [computed ->]]; constructor.
  - destruct 1; reflexivity.
Qed.


Lemma statePairsAt_length (c : string) (p : NodePath) :
  (List.length (statePairsAt c p) <= 1)%nat.
Proof.
  unfold statePairsAt.
  destruct (pnode p); simpl; try lia.
  destruct (isInsideComponent p c); simpl; try lia.
  destruct (useStatePair _ _); simpl; lia.
Qed.





(** ** Effects and their dependencies *)

Lemma identifierNames_In (elements : list (option node)) (x : string) :
  In x (identifierNames elements) <-> In (Some (Identifier x)) elements.
Proof.
  unfold identifierNames. rewrite in_flat_map. split.
  - intros [el [Hel Hx]].
    destruct el as [el|]; [destruct el|]; try contradiction.
    destruct Hx as [<- | []]. exact Hel.
  - intros H. exists (Some (Identifier x)). split; [exact H | now left].
Qed.

Lemma effectDepsAt_array (c : string) (p : NodePath)
    (callee : node) (arguments : list node) (elements : list (option node)) :
  pnode p = CallExpression callee arguments ->
  isEffectCall c p = true ->
  nth_error arguments 1 = Some (ArrayExpression elements) ->
  effectDepsAt c p = identifierNames elements.
Proof.
  intros Hp He Ha. unfold effectDepsAt. rewrite He, Hp.
  unfold effectDepNames. rewrite Ha. reflexivity.
Qed.

Lemma effectDepsAt_no_array (c : string) (p : NodePath)
    (callee : node) (arguments : list node) :
  pnode p = CallExpression callee arguments ->
  (forall elements, nth_error arguments 1 <> Some (ArrayExpression elements)) ->
  effectDepsAt c p = [].
Proof.
  intros Hp Ha. unfold effectDepsAt.
  destruct (isEffectCall c p); rewrite Hp; [|reflexivity].
  unfold effectDepNames.
  destruct (nth_error arguments 1) as [a|] eqn:E; [|reflexivity].
  destruct a; try reflexivity.
  exfalso. eapply Ha. reflexivity.
Qed.

Lemma effectDepsAt_other (c : string) (p : NodePath) :
  isEffectCall c p = false -> effectDepsAt c p = [].
Proof.
  unfold effectDepsAt. intros H.
  destruct (pnode p) eqn:E; try reflexivity.
  now rewrite H.
Qed.

(** The effect dependencies of a finished analysis are, in the order of
    the walk, those of the calls of [useEffect] or [React.useEffect]
    that the scope filter lets pass: a call whose second argument is a
    literal array
    gives the names of the elements of that array that are identifiers,
    and nothing else; a call with another or no second argument gives
    nothing, as does every other path; [effects] is true exactly when
    there is such a call. *)
Theorem effect_dependencies (ast : node) (r : AnalyzedComponent) :
  analyzeAst ast = Ok r ->
  effectDeps r = flat_map (effectDepsAt (name r)) (traverse ast)
  /\ effects r = existsb (isEffectCall (name r)) (traverse ast)
  /\ (forall p callee arguments,
        pnode p = CallExpression callee arguments ->
        isEffectCall (name r) p = true ->
        (forall elements,
           nth_error arguments 1 = Some (ArrayExpression elements) ->
           effectDepsAt (name r) p = identifierNames elements
           /\ forall x, In x (effectDepsAt (name r) p) <->
                        In (Some (Identifier x)) elements)
        /\ ((forall elements,
               nth_error arguments 1 <> Some (ArrayExpression elements)) ->
            effectDepsAt (name r) p = []))
  /\ (forall p, isEffectCall (name r) p = false ->
                effectDepsAt (name r) p = []).
Proof.
  intros H. split; [|split; [|split]].
  - rewrite (analyzeAst_name _ _ H).
    apply analyzeAst_contribute in H. destruct H as [m ->]. reflexivity.
  - rewrite (analyzeAst_name _ _ H).
    apply analyzeAst_contribute in H. destruct H as [m ->]. reflexivity.
  - intros p callee arguments Hp He. split.
    + intros elements Ha.
      rewrite (effectDepsAt_array _ _ _ _ _ Hp He Ha).
      split; [reflexivity|]. intros x. apply identifierNames_In.
    + intros Ha. eapply effectDepsAt_no_array; eassumption.
  - intros p. apply effectDepsAt_other.
Qed.

Lemma effect_dependencies_witness :
  analyzeAst Samples.loader = Ok Expected.loader
  /\ effectDeps Expected.loader
     = flat_map (effectDepsAt (name Expected.loader))
         (traverse Samples.loader)
  /\ effects Expected.loader
     = existsb (isEffectCall (name Expected.loader))
         (traverse Samples.loader).
Proof.
  split; [reflexivity|].
  pose proof (effect_dependencies Samples.loader Expected.loader eq_refl)
    as [H1 [H2 _]].
  split; assumption.
Defined.

(** C6 on [Samples.subscriber]: the call of [useEffect] with the
    dependency array [[a]] lies in the function declaration [Users], the
    component; the scope filter does not let it pass, since its nearest
    enclosing function is the arrow function bound to [subscribe], and
    the result has neither the effect nor its dependency. *)
Theorem effect_in_helper_is_dropped :
  effectCalls "Users" Samples.subscriber = [(["a"], true, false)]
  /\ analyzeAst Samples.subscriber = Ok Expected.subscriber
  /\ effects Expected.subscriber = false
  /\ effectDeps Expected.subscriber = [].
Proof. repeat split. Qed.

(** ** Network calls *)

Lemma apisAt_FromEffectBody (ast : node) (c : string) (p : NodePath)
    (a : Api.ApiInfo) :
  In p (traverse ast) -> In a (apisAt c p) -> FromEffectBody ast c a.
Proof.
  unfold apisAt, isEffectCall, effectBodyPaths. intros Hp Ha.
  destruct (pnode p) eqn:Ep; try contradiction.
  destruct (isInsideComponent p c) eqn:Ei; [|contradiction].
  destruct (isHookCallee _ _) eqn:Eh; [|contradiction].
  simpl in Ha.
  destruct (effectStatements _) as [statements|] eqn:Es; [|contradiction].
  apply in_flat_map in Ha. destruct Ha as [q [Hq Ha]].
  unfold FromEffectBody.
  do 5 eexists. repeat split; eassumption.
Qed.

(** C4: every record of [apis] in a finished analysis comes from a
    node of the walk over the body of the callback of an in-scope effect
    registration, and [usesFetch] and [usesAxios] are true exactly when
    [apis] holds a record of that kind; a call anywhere else adds no
    record and sets no flag. *)
Theorem network_calls_only_from_effect_bodies
    (ast : node) (r : AnalyzedComponent) :
  analyzeAst ast = Ok r ->
  apis r = flat_map (apisAt (name r)) (traverse ast)
  /\ (forall a, In a (apis r) -> FromEffectBody ast (name r) a)
  /\ usesFetch r = existsb isFetch (apis r)
  /\ usesAxios r = existsb isAxios (apis r).
Proof.
  intros H. rewrite (analyzeAst_name _ _ H).
  apply analyzeAst_contribute in H. destruct H as [m ->]. simpl.
  repeat split.
  intros a Ha. apply in_flat_map in Ha. destruct Ha as [p [Hp Ha]].
  eapply apisAt_FromEffectBody; eassumption.
Qed.

Lemma network_calls_witness :
  analyzeAst Samples.loader = Ok Expected.loader
  /\ apis Expected.loader
     = flat_map (apisAt (name Expected.loader)) (traverse Samples.loader)
  /\ usesFetch Expected.loader = existsb isFetch (apis Expected.loader)
  /\ usesAxios Expected.loader = existsb isAxios (apis Expected.loader).
Proof.
  split; [reflexivity|].
  pose proof (network_calls_only_from_effect_bodies
                Samples.loader Expected.loader eq_refl)
    as [H1 [_ [H2 H3]]].
  repeat split; assumption.
Defined.

(** The handler [reload] and the body of [Samples.loaderNoEffect] call
    [fetch] and [axios.get] with the text of the effect of
    [Samples.loader]; without the effect nothing is recorded. *)
Example network_calls_outside_effects :
  apis Expected.loaderNoEffect = []
  /\ usesFetch Expected.loaderNoEffect = false
  /\ usesAxios Expected.loaderNoEffect = false
  /\ apis Expected.loader
     = [Api.mk fetch None "/api"; Api.mk axios (Some "get") "/api"].
Proof. repeat split. Qed.

(** ** The component locator *)

Lemma fold_nameVisitor (ps : list NodePath) :
  forall x,
    fold_left nameVisitor ps x = fold_left nameOfExport (defaultExportsOf ps) x.
Proof.
  induction ps as [|p ps IH]; intros x; simpl; [reflexivity|].
  unfold defaultExportsOf in *. simpl. rewrite fold_left_app, IH.
  unfold nameVisitor. destruct (pnode p); reflexivity.
Qed.

Lemma truthy_true (x : string) : x <> EmptyString -> truthy x = true.
Proof.
  unfold truthy. intros H. destruct (x =? EmptyString) eqn:E.
  - apply String.eqb_eq in E. contradiction.
  - reflexivity.
Qed.

Lemma nameOfExport_spec (decl : node) :
  locatorSpec decl <> EmptyString ->
  nameOfExport "Anonymous" decl = locatorSpec decl.
Proof.
  unfold nameOfExport, unwrapDefaultExport, locatorSpec, idName.
  intros H.
  destruct decl; try reflexivity.
  - (* FunctionDeclaration *)
    destruct id as [id|]; [destruct id|]; try reflexivity.
    now rewrite !truthy_true.
  - (* Identifier *)
    now rewrite truthy_true.
  - (* CallExpression *)
    destruct arguments as [|a rest]; [reflexivity|].
    destruct a; try reflexivity. now rewrite truthy_true.
Qed.

(** C5: in a file with one default export, pass 1 resolves the name by
    the precedence of the locator: the name of a named function
    declaration, else the name of a bare identifier, else the name of the
    bare identifier given first to a call, else the sentinel
    ["Anonymous"].  Pass 1 is a function of the tree and has no other
    outcome than a name. *)
Theorem locator_precedence (ast decl : node) :
  defaultExports ast = [decl] ->
  locatorSpec decl <> EmptyString ->
  findComponentName ast = locatorSpec decl.
Proof.
  unfold findComponentName, defaultExports. intros He Hn.
  rewrite fold_nameVisitor, He. simpl.
  apply nameOfExport_spec. exact Hn.
Qed.

Lemma locator_precedence_witness :
  defaultExports Samples.todos = [Identifier "Todos"]
  /\ locatorSpec (Identifier "Todos") <> EmptyString
  /\ findComponentName Samples.todos = locatorSpec (Identifier "Todos").
Proof.
  split; [reflexivity|]. split; [discriminate|].
  apply (locator_precedence Samples.todos (Identifier "Todos")).
  - reflexivity.
  - discriminate.
Defined.

(** The four rules on sample exports. *)
Example locator_rules :
  locatorSpec Samples.usersFunction = "Users"
  /\ locatorSpec (Identifier "Todos") = "Todos"
  /\ locatorSpec (CallExpression (Identifier "memo") [Identifier "Users"])
     = "Users"
  /\ locatorSpec (ArrowFunctionExpression [] NullLiteral) = "Anonymous"
  /\ locatorSpec (FunctionDeclaration None [] (BlockStatement []))
     = "Anonymous".
Proof. repeat split. Qed.

(** ** An unresolved default export *)

Lemma findComponentName_unresolved (ast : node) :
  defaultExportUnresolved ast = true -> findComponentName ast = "Anonymous".
Proof.
  unfold defaultExportUnresolved, findComponentName, defaultExports.
  rewrite fold_nameVisitor.
  generalize (defaultExportsOf (traverse ast)). intros ds H.
  induction ds as [|d ds IH]; simpl in *; [reflexivity|].
  apply andb_true_iff in H. destruct H as [Hd Hds].
  unfold nameOfExport at 2.
  destruct (unwrapDefaultExport d); [discriminate|]. auto.
Qed.

Lemma not_inside_unbound (ast : node) (c : string) (p : NodePath) :
  noBindingNamed c ast = true ->
  In p (traverse ast) ->
  isInsideComponent p c = false.
Proof.
  unfold noBindingNamed. intros Hno Hp.
  destruct (isInsideComponent p c) eqn:E; [|reflexivity].
  apply isInsideComponent_binds, existsb_exists in E.
  destruct E as [a [Ha Hb]].
  destruct (traverse_ancestors ast p a Hp Ha) as [q [Hq <-]].
  rewrite forallb_forall in Hno. specialize (Hno q Hq).
  rewrite Hb in Hno. discriminate.
Qed.

Lemma visit_unbound (c : string) (p : NodePath) (acc : AnalyzedComponent) :
  bindsName c (pnode p) = false ->
  isInsideComponent p c = false ->
  visit c p acc = Ok acc.
Proof.
  unfold visit, visitFunctionDeclaration, visitVariableDeclarator,
    visitJSXElement, visitCallExpression, functionDeclarationName, idName,
    isIdentifierNamed, bindsName.
  intros Hb Hi. rewrite Hi.
  destruct (pnode p); simpl; try reflexivity;
    repeat match type of Hb with
           | context [match ?x with _ => _ end] =>
               destruct x; try reflexivity
           end;
    now rewrite Hb.
Qed.

Lemma visitAll_unchanged (c : string) (ps : list NodePath)
    (acc : AnalyzedComponent) :
  (forall p, In p ps -> visit c p acc = Ok acc) ->
  visitAll (visit c) ps acc = Ok acc.
Proof.
  induction ps as [|p ps IH]; intros H; simpl; [reflexivity|].
  rewrite (H p (or_introl eq_refl)). simpl.
  apply IH. intros q Hq. apply H. now right.
Qed.

(** C10: when no default export of the file has one of the locator's
    shapes and the file binds no function declaration and no variable
    named ["Anonymous"], the analysis returns the name ["Anonymous"]
    with every collection empty and every flag false. *)
Theorem unresolved_export_yields_nothing (ast : node) :
  defaultExportUnresolved ast = true ->
  noBindingNamed "Anonymous" ast = true ->
  analyzeAst ast
  = Ok (mkAnalyzed "Anonymous" [] [] false [] false false [] [] []).
Proof.
  intros Hu Hn. unfold analyzeAst.
  rewrite (findComponentName_unresolved ast Hu).
  apply visitAll_unchanged. intros p Hp.
  apply visit_unbound.
  - unfold noBindingNamed in Hn. rewrite forallb_forall in Hn.
    apply negb_true_iff. apply Hn. exact Hp.
  - eapply not_inside_unbound; eassumption.
Qed.

Lemma unresolved_export_witness :
  defaultExportUnresolved Samples.anonymous = true
  /\ noBindingNamed "Anonymous" Samples.anonymous = true
  /\ analyzeAst Samples.anonymous
     = Ok (mkAnalyzed "Anonymous" [] [] false [] false false [] [] []).
Proof.
  split; [reflexivity|]. split; [reflexivity|].
  apply (unresolved_export_yields_nothing Samples.anonymous); reflexivity.
Defined.

(** ** Role hints *)

Lemma guessRole_values (tag : string) (props : jsObject propValue) :
  guessRole tag props = None
  \/ exists h, guessRole tag props = Some h /\ In h roleHints.
Proof.
  unfold guessRole, roleHints.
  repeat match goal with
         | |- context [if ?b then _ else _] => destruct b
         end;
    try (left; reflexivity);
    right; eexists; (split; [reflexivity | simpl; tauto]).
Qed.

Lemma guessRole_textbox (tag : string) (props : jsObject propValue) :
  guessRole tag props = Some "textbox" -> textboxType props = true.
Proof.
  unfold guessRole, textboxType, truthy.
  destruct (_ || _); [discriminate|].
  destruct (_ || _).
  - destruct (getOwn props "type") as [v|]; [|reflexivity].
    rewrite negb_involutive.
    destruct (_ || _); [reflexivity|].
    repeat match goal with
           | |- context [if ?b then _ else _] => destruct b
           end; discriminate.
  - repeat match goal with
           | |- context [if ?b then _ else _] => destruct b
           end; discriminate.
Qed.

Lemma guessRole_reads (tag : string) (props props' : jsObject propValue) :
  getOwn props "role" = getOwn props' "role" ->
  getOwn props "type" = getOwn props' "type" ->
  guessRole tag props = guessRole tag props'.
Proof. unfold guessRole. intros -> ->. reflexivity. Qed.

(** C7, as stated: the role hint is one of button, textbox, link and
    image, and a text box has no [type] attribute or the type "text".
    An [img] element gets the hint "img", and an input of type "TEXT"
    or of the empty type gets the hint "textbox". *)
Lemma role_hint_counterexample :
  Element.roleHint (elementInfo (JSXIdentifier "img") [] []) = Some "img"
  /\ ~ In "img" ["button"; "textbox"; "link"; "image"]
  /\ Element.roleHint
       (elementInfo (JSXIdentifier "input") [Samples.attr "type" "TEXT"] [])
     = Some "textbox"
  /\ Element.roleHint
       (elementInfo (JSXIdentifier "input")
          [Samples.attr "type" EmptyString] [])
     = Some "textbox".
Proof.
  repeat split.
  simpl. intros [H | [H | [H | [H | []]]]]; discriminate.
Qed.

(** C7, amended: the role hint of an element record is absent or one of
    button, textbox, link and img; it is [guessRole] of the tag name
    and the properties, which reads the tag name and the [role] and
    [type] properties only; and it is textbox only when the element has
    no [type] property, or one whose text in lower case is empty or
    "text". *)
Theorem role_hint_values (tagName : node) (attributes children : list node) :
  (Element.roleHint (elementInfo tagName attributes children) = None
   \/ exists h,
        Element.roleHint (elementInfo tagName attributes children) = Some h
        /\ In h roleHints)
  /\ (Element.roleHint (elementInfo tagName attributes children)
      = Some "textbox" ->
      textboxType (Element.props (elementInfo tagName attributes children))
      = true)
  /\ Element.roleHint (elementInfo tagName attributes children)
     = guessRole (Element.type (elementInfo tagName attributes children))
         (Element.props (elementInfo tagName attributes children))
  /\ (forall tag props props',
        getOwn props "role" = getOwn props' "role" ->
        getOwn props "type" = getOwn props' "type" ->
        guessRole tag props = guessRole tag props').
Proof.
  split; [|split; [|split]].
  - apply guessRole_values.
  - apply guessRole_textbox.
  - reflexivity.
  - apply guessRole_reads.
Qed.

(** ** The boundary of [analyzeComponent] *)

Lemma analyzeComponent_unreadable (World : Type)
    (read : World -> string -> result string)
    (parser : string -> string -> result node)
    (w : World) (filePath message : string) :
  read w filePath = Throw message ->
  analyzeComponent World read parser w filePath
  = Throw ("Failed to read file " ++ quote ++ filePath ++ quote ++ ": "
           ++ message).
Proof. unfold analyzeComponent. now intros ->. Qed.

Lemma analyzeComponent_unparsable (World : Type)
    (read : World -> string -> result string)
    (parser : string -> string -> result node)
    (w : World) (filePath code message : string) :
  read w filePath = Ok code ->
  parser code filePath = Throw message ->
  analyzeComponent World read parser w filePath
  = Throw ("Failed to parse " ++ quote ++ filePath ++ quote ++ ": "
           ++ message).
Proof. unfold analyzeComponent. now intros -> ->. Qed.

Lemma analyzeComponent_parsed (World : Type)
    (read : World -> string -> result string)
    (parser : string -> string -> result node)
    (w : World) (filePath code : string) (ast : node) :
  read w filePath = Ok code ->
  parser code filePath = Ok ast ->
  analyzeComponent World read parser w filePath = analyzeAst ast.
Proof. unfold analyzeComponent. now intros -> ->. Qed.

(** ** Two runs on one heap *)

Lemma heap_read_app (h l : Heap.heap) (i : nat) :
  Heap.read (h ++ l) (List.length h + i) = nth_error l i.
Proof.
  unfold Heap.read. rewrite nth_error_app2 by lia. f_equal. lia.
Qed.

Lemma heap_write_app (h l : Heap.heap) (i : nat) (c : Heap.cell) :
  Heap.write (h ++ l) (List.length h + i) c = h ++ Heap.write l i c.
Proof. induction h as [|x h IH]; simpl; [reflexivity | now rewrite IH]. Qed.

(** The frame of a call reads its own cells, whatever lies before and
    after them. *)
Lemma heap_load_frame (h more : Heap.heap) (a : AnalyzedComponent) :
  Heap.load (h ++ Heap.cells a ++ more) (Heap.frameAt (List.length h) a)
  = Some a.
Proof.
  unfold Heap.load, Heap.frameAt.
  cbn [Heap.elementsRef Heap.statesRef Heap.propsRef Heap.effectDepsRef
       Heap.eventToSetterMapRef Heap.analyzedAPIsRef Heap.componentName
       Heap.effectsVar Heap.usesFetchVar Heap.usesAxiosVar].
  rewrite !heap_read_app. destruct a. reflexivity.
Qed.

(** A visitor writes on the cells of its frame and on no other. *)
Lemma heap_store_frame (h : Heap.heap) (a a' : AnalyzedComponent) :
  name a' = name a ->
  Heap.store (Heap.frameAt (List.length h) a) a' (h ++ Heap.cells a)
  = (Heap.frameAt (List.length h) a', h ++ Heap.cells a').
Proof.
  intros Hn. unfold Heap.store, Heap.frameAt.
  cbn [Heap.elementsRef Heap.statesRef Heap.propsRef Heap.effectDepsRef
       Heap.eventToSetterMapRef Heap.analyzedAPIsRef Heap.componentName
       Heap.effectsVar Heap.usesFetchVar Heap.usesAxiosVar].
  unfold Heap.cells.
  repeat (rewrite heap_write_app; cbn [Heap.write]).
  now rewrite Hn.
Qed.

(** The cells of a call are new: they follow what was on the heap. *)
Lemma heap_allocate (c : string) (h : Heap.heap) :
  Heap.allocate c h
  = (Heap.frameAt (List.length h) (initial c), h ++ Heap.cells (initial c)).
Proof.
  unfold Heap.allocate, Heap.alloc, Heap.frameAt, Heap.cells, initial.
  cbn [name elements states effects props usesFetch usesAxios apis
       effectDeps eventToSetterMap].
  rewrite !length_app. cbn [List.length].
  rewrite <- !app_assoc. cbn [app].
  f_equal. f_equal; lia.
Qed.

Lemma collect_name (c : string) (acc : AnalyzedComponent) (p : NodePath) :
  name (collect c acc p) = name acc.
Proof. now rewrite collect_eq. Qed.

Lemma visit_name (c : string) (p : NodePath) (acc acc' : AnalyzedComponent) :
  visit c p acc = Ok acc' -> name acc' = name acc.
Proof.
  intros H. apply visit_collect in H. destruct H as [m ->].
  apply collect_name.
Qed.

Lemma heap_visitInPlace (p : NodePath) (a : AnalyzedComponent)
    (h : Heap.heap) :
  Heap.visitInPlace p (Heap.frameAt (List.length h) a) (h ++ Heap.cells a)
  = match visit (name a) p a with
    | Ok a' => (Ok (Heap.frameAt (List.length h) a'), h ++ Heap.cells a')
    | Throw message =>
        (Throw message, h ++ Heap.cells (collect (name a) a p))
    end.
Proof.
  unfold Heap.visitInPlace.
  pose proof (heap_load_frame h [] a) as Hl. rewrite app_nil_r in Hl.
  rewrite Hl.
  change (Heap.componentName (Heap.frameAt (List.length h) a)) with (name a).
  destruct (visit (name a) p a) as [a'|message] eqn:Ev.
  - rewrite heap_store_frame by (eapply visit_name; exact Ev). reflexivity.
  - rewrite heap_store_frame by apply collect_name. reflexivity.
Qed.

(** The walk on the heap returns what the walk of the analysis returns,
    at the references of its frame, and leaves the heap it found with
    the cells of the frame after it. *)
Lemma heap_visitAllInPlace (ps : list NodePath) :
  forall (a : AnalyzedComponent) (h : Heap.heap),
    exists a',
      Heap.visitAllInPlace ps (Heap.frameAt (List.length h) a)
        (h ++ Heap.cells a)
      = (match visitAll (visit (name a)) ps a with
         | Ok r => Ok (Heap.frameAt (List.length h) r)
         | Throw message => Throw message
         end,
         h ++ Heap.cells a')
      /\ forall r, visitAll (visit (name a)) ps a = Ok r -> a' = r.
Proof.
  induction ps as [|p ps IH]; intros a h; simpl.
  - exists a. split; [reflexivity|]. now intros r [= <-].
  - rewrite heap_visitInPlace.
    destruct (visit (name a) p a) as [a1|message] eqn:Ev; simpl.
    + destruct (IH a1 h) as [a' [Hrun Hr]].
      rewrite (visit_name _ _ _ _ Ev) in Hrun, Hr.
      exists a'. split; assumption.
    + exists (collect (name a) a p). split; [reflexivity|]. discriminate.
Qed.

Lemma heap_analyzeAstInPlace (ast : node) (h : Heap.heap) :
  exists a',
    Heap.analyzeAstInPlace ast h
    = (match analyzeAst ast with
       | Ok r => Ok (Heap.frameAt (List.length h) r)
       | Throw message => Throw message
       end,
       h ++ Heap.cells a')
    /\ forall r, analyzeAst ast = Ok r -> a' = r.
Proof.
  unfold Heap.analyzeAstInPlace, analyzeAst. rewrite heap_allocate.
  apply (heap_visitAllInPlace (traverse ast)
           (initial (findComponentName ast)) h).
Qed.

(** One call of [analyzeComponent] on a heap: it returns what the
    analysis returns, held in cells of its own, or raises what the
    analysis raises; what was on the heap before is still there. *)
Lemma heap_analyzeComponentInPlace (World : Type)
    (read : World -> string -> result string)
    (parser : string -> string -> result node)
    (w : World) (filePath : string) (h : Heap.heap) :
  exists fresh,
    snd (Heap.analyzeComponentInPlace World read parser w filePath h)
    = h ++ fresh
    /\ match analyzeComponent World read parser w filePath with
       | Ok v =>
           fst (Heap.analyzeComponentInPlace World read parser w filePath h)
           = Ok (Heap.frameAt (List.length h) v)
           /\ fresh = Heap.cells v
       | Throw message =>
           fst (Heap.analyzeComponentInPlace World read parser w filePath h)
           = Throw message
       end.
Proof.
  unfold Heap.analyzeComponentInPlace, analyzeComponent.
  destruct (read w filePath) as [code|message];
    [|exists []; simpl; now rewrite app_nil_r].
  destruct (parser code filePath) as [ast|message];
    [|exists []; simpl; now rewrite app_nil_r].
  destruct (heap_analyzeAstInPlace ast h) as [a' [-> Hr]]. simpl.
  destruct (analyzeAst ast) as [v|message].
  - exists (Heap.cells v). rewrite (Hr v eq_refl). auto.
  - exists (Heap.cells a'). auto.
Qed.

(** C9: two calls of [analyzeComponent], one after the other on the
    same heap, on a file whose text has not changed. Each call allocates
    its accumulators: what was on the heap before it is still there
    after it, so the second call changes nothing of what the first has
    returned. Both return, or both raise the same error; when they
    return, the two objects hold the same value, field by field and,
    in each array and in each list of setters, element by element in the
    same order; it is the value of the analysis of the file. *)
Theorem analyzeComponent_deterministic (World : Type)
    (read : World -> string -> result string)
    (parser : string -> string -> result node)
    (w1 w2 : World) (filePath : string) (h : Heap.heap) :
  read w1 filePath = read w2 filePath ->
  let first := Heap.analyzeComponentInPlace World read parser w1 filePath h in
  let second :=
    Heap.analyzeComponentInPlace World read parser w2 filePath (snd first) in
  (exists fresh1 fresh2,
      snd first = h ++ fresh1 /\ snd second = snd first ++ fresh2)
  /\ match fst first, fst second with
     | Ok r1, Ok r2 =>
         exists v,
           analyzeComponent World read parser w1 filePath = Ok v
           /\ Heap.load (snd first) r1 = Some v
           /\ Heap.load (snd second) r1 = Some v
           /\ Heap.load (snd second) r2 = Some v
     | Throw m1, Throw m2 =>
         m1 = m2
         /\ analyzeComponent World read parser w1 filePath = Throw m1
     | _, _ => False
     end.
Proof.
  intros Hread first second.
  assert (Hsame : analyzeComponent World read parser w2 filePath
                  = analyzeComponent World read parser w1 filePath).
  { unfold analyzeComponent. now rewrite Hread. }
  destruct (heap_analyzeComponentInPlace World read parser w1 filePath h)
    as [fresh1 [H1 R1]].
  destruct (heap_analyzeComponentInPlace World read parser w2 filePath
              (snd first)) as [fresh2 [H2 R2]].
  fold first in H1, R1. fold second in H2, R2.
  rewrite Hsame in R2.
  split; [exists fresh1, fresh2; split; assumption|].
  destruct (analyzeComponent World read parser w1 filePath) as [v|message].
  - destruct R1 as [-> ->]. destruct R2 as [-> ->].
    exists v. split; [reflexivity|].
    rewrite H2, H1.
    pose proof (heap_load_frame h [] v) as L1.
    pose proof (heap_load_frame h (Heap.cells v) v) as L2.
    pose proof (heap_load_frame (h ++ Heap.cells v) [] v) as L3.
    rewrite app_nil_r in L1, L3. rewrite app_assoc in L2.
    auto.
  - rewrite R1, R2. auto.
Qed.

Lemma analyzeComponent_deterministic_witness :
  Samples.readFileSync Samples.disk "Todos.tsx"
  = Samples.readFileSync Samples.otherDisk "Todos.tsx"
  /\ let first :=
       Heap.analyzeComponentInPlace Samples.Disk Samples.readFileSync
         Samples.parse Samples.disk "Todos.tsx" (Heap.cells Expected.users) in
     let second :=
       Heap.analyzeComponentInPlace Samples.Disk Samples.readFileSync
         Samples.parse Samples.otherDisk "Todos.tsx" (snd first) in
     match fst first, fst second with
     | Ok r1, Ok r2 =>
         exists v,
           analyzeComponent Samples.Disk Samples.readFileSync Samples.parse
             Samples.disk "Todos.tsx" = Ok v
           /\ Heap.load (snd first) r1 = Some v
           /\ Heap.load (snd second) r1 = Some v
           /\ Heap.load (snd second) r2 = Some v
     | Throw m1, Throw m2 =>
         m1 = m2
         /\ analyzeComponent Samples.Disk Samples.readFileSync Samples.parse
              Samples.disk "Todos.tsx" = Throw m1
     | _, _ => False
     end.
Proof.
  split; [reflexivity|].
  apply (analyzeComponent_deterministic Samples.Disk Samples.readFileSync
           Samples.parse Samples.disk Samples.otherDisk "Todos.tsx"
           (Heap.cells Expected.users)).
  reflexivity.
Defined.

(** The two calls on the sample disk: the second object lies in cells
    of its own, after those of the first. *)
Example two_runs_on_the_sample_disk :
  let first :=
    Heap.analyzeComponentInPlace Samples.Disk Samples.readFileSync
      Samples.parse Samples.disk "Todos.tsx" [] in
  let second :=
    Heap.analyzeComponentInPlace Samples.Disk Samples.readFileSync
      Samples.parse Samples.disk "Todos.tsx" (snd first) in
  fst first = Ok (Heap.frameAt 0 Expected.todos)
  /\ fst second = Ok (Heap.frameAt 6 Expected.todos)
  /\ snd second = Heap.cells Expected.todos ++ Heap.cells Expected.todos.
Proof. repeat split. Qed.

(** ** The scope filter *)

(** The element records of a finished analysis are those of the markup
    nodes that the scope filter lets pass, in the order of the walk. *)
Lemma elements_of_analysis (ast : node) (r : AnalyzedComponent) :
  analyzeAst ast = Ok r ->
  elements r = flat_map (elementsAt (name r)) (traverse ast).
Proof.
  intros H. rewrite (analyzeAst_name _ _ H).
  apply analyzeAst_contribute in H. destruct H as [m ->]. reflexivity.
Qed.

(** C1 on [Samples.users]: the [ul] and the [li] inside the callback of
    [items.map] both lie in the function declaration [Users]; the scope
    filter lets the first pass and not the second, whose nearest
    enclosing function is the arrow function, and the analysis returns
    one element record for the two markup nodes. *)
Theorem nested_markup_is_dropped :
  markupNodes "Users" Samples.users
  = [("ul", true, true); ("li", true, false)]
  /\ analyzeAst Samples.users = Ok Expected.users
  /\ map Element.type (elements Expected.users) = ["ul"].
Proof. repeat split. Qed.

(** ** Handlers and setters *)

(** A call that the scope filter lets pass, inside a function other
    than a function declaration that is bound to a variable, with no
    variable declarator between the call and the function: the variable
    is the component. *)
Lemma variable_bound_handler_is_component (p f : NodePath) (c x : string)
    (init : option node) (rest : list node) :
  isInsideComponent p c = true ->
  getFunctionParent p = Some f ->
  functionDeclarationName (pnode f) = None ->
  parentPath f = Some (mkPath (VariableDeclarator (Identifier x) init) rest) ->
  findParent p (fun q => isVariableDeclarator (pnode q)) = parentPath f ->
  x = c.
Proof.
  intros Hin Hf Hn Hp Hv.
  apply isInsideComponent_nearest in Hin.
  destruct Hin as [[f' [y [Hf' [Hy _]]]] | [init' [rest' Hd]]].
  - rewrite Hf in Hf'. injection Hf' as <-. rewrite Hn in Hy. discriminate.
  - rewrite Hv, Hp in Hd. now injection Hd.
Qed.

(** C2 on the component of the README: [setTodos] and [setInput] are
    recorded setters, and the calls of both inside [addTodo] lie in the
    component; the scope filter lets neither pass, since their nearest
    variable declarator is [addTodo], and the handler map of the result
    has no entry for [addTodo]. *)
Theorem handler_of_readme_is_not_mapped :
  analyzeAst Samples.todos = Ok Expected.todos
  /\ states Expected.todos
     = [mkState "todos" "setTodos"; mkState "input" "setInput"]
  /\ setterCalls "Todos" "setInput" Samples.todos
     = [("addTodo", true, false); (EmptyString, true, true)]
  /\ setterCalls "Todos" "setTodos" Samples.todos
     = [(EmptyString, true, true); ("addTodo", true, false)]
  /\ getOwn (eventToSetterMap Expected.todos) "addTodo" = None
  /\ eventToSetterMap Expected.todos = [].
Proof. repeat split. Qed.

(** A handler that is a function declaration inside an arrow component
    is mapped. *)
Example declared_handler_is_mapped :
  analyzeAst (Samples.counter "increment") = Ok Expected.counter
  /\ getOwn (eventToSetterMap Expected.counter) "increment" = Some ["setN"].
Proof. repeat split. Qed.

(** ** Errors *)

(** C8 on [Samples.counter]: with a handler declared under the name of
    a member of [Object.prototype] the analysis of a file that was read
    and parsed raises a [TypeError]. *)
Theorem prototype_named_handler_raises :
  analyzeAst (Samples.counter "valueOf") = Throw pushIsNotAFunction
  /\ analyzeComponent Samples.Disk Samples.readFileSync Samples.parse
       Samples.disk "Counter.tsx"
     = Throw pushIsNotAFunction
  /\ Forall
       (fun handler =>
          analyzeAst (Samples.counter handler) = Throw pushIsNotAFunction)
       objectPrototypeKeys.
Proof. repeat split; repeat constructor. Qed.

(** The two failures of the boundary on the sample disk. *)
Example boundary_failures :
  analyzeComponent Samples.Disk Samples.readFileSync Samples.parse
    Samples.disk "Missing.tsx"
  = Throw ("Failed to read file " ++ quote ++ "Missing.tsx" ++ quote
           ++ ": ENOENT: no such file or directory, open Missing.tsx")
  /\ analyzeComponent Samples.Disk Samples.readFileSync Samples.parse
       Samples.disk "Broken.tsx"
     = Throw ("Failed to parse " ++ quote ++ "Broken.tsx" ++ quote
              ++ ": Unexpected token (1:0)").
Proof. split; reflexivity. Qed.

(** * Further properties of the analyzer *)

(** ** Plain objects *)

Lemma getOwn_setOwn_eq (V : Type) (o : jsObject V) (k : string) (v : V) :
  getOwn (setOwn o k v) k = Some v.
Proof.
  induction o as [|[k' w] o IH]; simpl.
  - now rewrite String.eqb_refl.
  - destruct (k' =? k) eqn:E; simpl; rewrite E; [reflexivity | exact IH].
Qed.

Lemma getOwn_setOwn_neq (V : Type) (o : jsObject V) (k k' : string) (v : V) :
  k <> k' -> getOwn (setOwn o k v) k' = getOwn o k'.
Proof.
  intros Hne. induction o as [|[k0 w] o IH]; simpl.
  - apply String.eqb_neq in Hne. now rewrite Hne.
  - destruct (k0 =? k) eqn:E; simpl.
    + apply String.eqb_eq in E. subst k0.
      apply String.eqb_neq in Hne. now rewrite Hne.
    + destruct (k0 =? k'); [reflexivity | exact IH].
Qed.

Lemma getOwn_assign_eq (V : Type) (o : jsObject V) (k : string) (v : V) :
  k <> "__proto__" -> getOwn (assign o k v) k = Some v.
Proof.
  unfold assign. intros H. apply String.eqb_neq in H. rewrite H.
  apply getOwn_setOwn_eq.
Qed.

Lemma getOwn_assign_neq (V : Type) (o : jsObject V) (k k' : string) (v : V) :
  k <> k' -> getOwn (assign o k v) k' = getOwn o k'.
Proof.
  unfold assign. intros H. destruct (k =? "__proto__"); [reflexivity|].
  now apply getOwn_setOwn_neq.
Qed.

Lemma getOwn_assign_proto (V : Type) (o : jsObject V) (k : string) (v : V) :
  getOwn (assign o k v) "__proto__" = getOwn o "__proto__".
Proof.
  unfold assign. destruct (k =? "__proto__") eqn:E; [reflexivity|].
  apply getOwn_setOwn_neq. now apply String.eqb_neq.
Qed.

Lemma getOwn_In (V : Type) (o : jsObject V) (k : string) (v : V) :
  getOwn o k = Some v -> In (k, v) o.
Proof.
  induction o as [|[k' w] o IH]; simpl; [discriminate|].
  destruct (k' =? k) eqn:E.
  - apply String.eqb_eq in E. intros [= ->]. subst. now left.
  - intros H. right. now apply IH.
Qed.

Lemma getOwn_None (V : Type) (o : jsObject V) (k : string) :
  getOwn o k = None -> ~ In k (map fst o).
Proof.
  induction o as [|[k' w] o IH]; simpl; [tauto|].
  destruct (k' =? k) eqn:E; [discriminate|].
  apply String.eqb_neq in E. intros H [H1 | H2]; [contradiction|].
  now apply IH.
Qed.

Lemma In_setOwn (V : Type) (o : jsObject V) (k k' : string) (v v' : V) :
  In (k', v') (setOwn o k v) -> (k' = k /\ v' = v) \/ In (k', v') o.
Proof.
  induction o as [|[k0 w] o IH]; simpl.
  - intros [[= <- <-] | []]. now left.
  - destruct (k0 =? k) eqn:E; simpl.
    + apply String.eqb_eq in E. subst k0.
      intros [[= <- <-] | H]; [now left | right; now right].
    + intros [H | H]; [right; now left|].
      destruct (IH H) as [H1 | H1]; [now left | right; now right].
Qed.

Lemma keys_setOwn (V : Type) (o : jsObject V) (k : string) (v : V) :
  map fst (setOwn o k v)
  = match getOwn o k with
    | Some _ => map fst o
    | None => map fst o ++ [k]
    end.
Proof.
  induction o as [|[k0 w] o IH]; simpl; [reflexivity|].
  destruct (k0 =? k) eqn:E; simpl.
  - reflexivity.
  - rewrite IH. destruct (getOwn o k); reflexivity.
Qed.

Lemma NoDup_setOwn (V : Type) (o : jsObject V) (k : string) (v : V) :
  NoDup (map fst o) -> NoDup (map fst (setOwn o k v)).
Proof.
  intros H. rewrite keys_setOwn.
  destruct (getOwn o k) eqn:E; [exact H|].
  apply getOwn_None in E.
  apply NoDup_rev in H. rewrite <- (rev_involutive (_ ++ [k])).
  apply NoDup_rev. rewrite rev_app_distr. simpl.
  constructor; [|exact H]. now rewrite <- in_rev.
Qed.

(** ** Attributes *)

Lemma jsxAttr_props (acc : JsxProps) (attr : node) :
  jp_props (jsxAttr acc attr)
  = match attr with
    | JSXAttribute (JSXIdentifier key) val =>
        assign (jp_props acc) key (fst (storedValue val))
    | _ => jp_props acc
    end.
Proof.
  unfold jsxAttr, storedValue.
  repeat match goal with
         | |- context [match ?x with _ => _ end] => destruct x; try reflexivity
         end.
Qed.

Lemma jsxAttr_testId (acc : JsxProps) (attr : node) :
  jp_testId (jsxAttr acc attr)
  = match literalTestId attr with
    | Some s => Some s
    | None => jp_testId acc
    end.
Proof.
  unfold jsxAttr, literalTestId.
  repeat match goal with
         | |- context [match ?x with _ => _ end] => destruct x; try reflexivity
         end.
Qed.

Lemma jsxAttr_events (acc : JsxProps) (attr : node) :
  jp_events (jsxAttr acc attr)
  = match attr with
    | JSXAttribute (JSXIdentifier key) val =>
        match snd (storedValue val) with
        | Some h =>
            if startsWith key "on" then assign (jp_events acc) key h
            else jp_events acc
        | None => jp_events acc
        end
    | _ => jp_events acc
    end.
Proof.
  unfold jsxAttr, storedValue.
  repeat match goal with
         | |- context [match ?x with _ => _ end] => destruct x; try reflexivity
         end.
Qed.

Lemma getJsxProps_snoc (attrs : list node) (attr : node) :
  getJsxProps (attrs ++ [attr]) = jsxAttr (getJsxProps attrs) attr.
Proof. unfold getJsxProps. now rewrite fold_left_app. Qed.

Lemma fold_jsxAttr_other (k : string) (attrs : list node) :
  existsb (namedAttribute k) attrs = false ->
  forall acc,
    getOwn (jp_props (fold_left jsxAttr attrs acc)) k = getOwn (jp_props acc) k.
Proof.
  induction attrs as [|a attrs IH]; simpl; intros H acc; [reflexivity|].
  apply orb_false_iff in H. destruct H as [Ha Hrest].
  rewrite (IH Hrest), jsxAttr_props.
  unfold namedAttribute in Ha.
  repeat match goal with
         | |- context [match ?x with _ => _ end] => destruct x; try reflexivity
         end.
  apply getOwn_assign_neq. now apply String.eqb_neq.
Qed.

Lemma fold_jsxAttr_proto (attrs : list node) :
  forall acc,
    getOwn (jp_props (fold_left jsxAttr attrs acc)) "__proto__"
    = getOwn (jp_props acc) "__proto__".
Proof.
  induction attrs as [|a attrs IH]; simpl; intros acc; [reflexivity|].
  rewrite IH, jsxAttr_props.
  repeat match goal with
         | |- context [match ?x with _ => _ end] => destruct x; try reflexivity
         end.
  apply getOwn_assign_proto.
Qed.

(** Of the attributes with one name the last one is stored: the
    property of an element under a key other than [__proto__] is the
    value of the last attribute of that name. *)
Theorem last_attribute_is_stored (tagName : node)
    (pre post children : list node) (k : string) (val : option node) :
  k <> "__proto__" ->
  existsb (namedAttribute k) post = false ->
  getOwn
    (Element.props
       (elementInfo tagName
          (pre ++ JSXAttribute (JSXIdentifier k) val :: post) children))
    k
  = Some (fst (storedValue val)).
Proof.
  intros Hk Hpost. unfold elementInfo. cbn [Element.props].
  unfold getJsxProps. rewrite fold_left_app. cbn [fold_left].
  rewrite (fold_jsxAttr_other k post Hpost), jsxAttr_props.
  now apply getOwn_assign_eq.
Qed.

Lemma last_attribute_is_stored_witness :
  "value" <> "__proto__"
  /\ existsb (namedAttribute "value") [Samples.attr "placeholder" "Add"]
     = false
  /\ getOwn
       (Element.props
          (elementInfo (JSXIdentifier "input")
             ([Samples.attr "value" "old"]
              ++ JSXAttribute (JSXIdentifier "value")
                   (Some (JSXExpressionContainer (Identifier "count")))
                 :: [Samples.attr "placeholder" "Add"])
             []))
       "value"
     = Some
         (fst (storedValue
                 (Some (JSXExpressionContainer (Identifier "count"))))).
Proof.
  split; [discriminate|]. split; [reflexivity|].
  apply (last_attribute_is_stored (JSXIdentifier "input")
           [Samples.attr "value" "old"] [Samples.attr "placeholder" "Add"] []
           "value" (Some (JSXExpressionContainer (Identifier "count")))).
  - discriminate.
  - reflexivity.
Defined.

(** A key that no attribute is named by is no property of the element,
    and [__proto__] never is one, whatever the attributes. *)
Theorem absent_attribute_is_no_property (tagName : node)
    (attributes children : list node) (k : string) :
  k = "__proto__" \/ existsb (namedAttribute k) attributes = false ->
  getOwn (Element.props (elementInfo tagName attributes children)) k = None.
Proof.
  unfold elementInfo. cbn [Element.props]. unfold getJsxProps.
  intros [-> | H].
  - now rewrite fold_jsxAttr_proto.
  - now rewrite (fold_jsxAttr_other k attributes H).
Qed.

Lemma absent_attribute_is_no_property_witness :
  ("__proto__" = "__proto__"
   \/ existsb (namedAttribute "__proto__") [Samples.attr "__proto__" "x"]
      = false)
  /\ getOwn
       (Element.props
          (elementInfo (JSXIdentifier "div") [Samples.attr "__proto__" "x"]
             []))
       "__proto__"
     = None.
Proof.
  split; [now left|].
  apply (absent_attribute_is_no_property (JSXIdentifier "div")
           [Samples.attr "__proto__" "x"] [] "__proto__").
  now left.
Defined.

Lemma fold_jsxAttr_testId (attrs : list node) (s : string) :
  forall acc,
    jp_testId (fold_left jsxAttr attrs acc) = Some s <->
    (exists pre post,
        attrs
        = pre
          ++ JSXAttribute (JSXIdentifier "data-testid")
               (Some (StringLiteral s)) :: post
        /\ Forall (fun a => literalTestId a = None) post)
    \/ (jp_testId acc = Some s
        /\ Forall (fun a => literalTestId a = None) attrs).
Proof.
  induction attrs as [|a attrs IH]; intros acc; simpl.
  - split.
    + intros H. right. split; [exact H | constructor].
    + intros [[pre [post [H _]]] | [H _]]; [|exact H].
      destruct pre; discriminate.
  - rewrite IH, jsxAttr_testId. split.
    + intros [[pre [post [-> Hpost]]] | [Hacc Hrest]].
      * left. exists (a :: pre), post. split; [reflexivity | exact Hpost].
      * destruct (literalTestId a) as [t|] eqn:Ea.
        -- injection Hacc as ->. left. exists [], attrs.
           split; [|exact Hrest]. simpl. f_equal.
           unfold literalTestId in Ea.
           repeat match type of Ea with
                  | context [match ?x with _ => _ end] =>
                      destruct x eqn:?; try discriminate
                  end.
           injection Ea as ->.
           match goal with
           | H : (_ =? "data-testid") = true |- _ =>
               apply String.eqb_eq in H; subst
           end.
           reflexivity.
        -- right. split; [exact Hacc|]. constructor; assumption.
    + intros [[pre [post [Heq Hpost]]] | [Hacc Hall]].
      * destruct pre as [|b pre]; simpl in Heq; injection Heq as -> ->.
        -- right. split; [reflexivity | exact Hpost].
        -- left. exists pre, post. split; [reflexivity | exact Hpost].
      * inversion Hall as [|? ? Ha Hrest]; subst.
        right. rewrite Ha. split; assumption.
Qed.

(** The test id of an element is the literal of its last [data-testid]
    attribute that has a string literal as value, unchanged, and is
    absent when there is none: an attribute bound to an expression sets
    no test id. *)
Theorem testId_is_last_literal (tagName : node)
    (attributes children : list node) (s : string) :
  Element.testId (elementInfo tagName attributes children) = Some s <->
  exists pre post,
    attributes
    = pre
      ++ JSXAttribute (JSXIdentifier "data-testid") (Some (StringLiteral s))
         :: post
    /\ Forall (fun a => literalTestId a = None) post.
Proof.
  unfold elementInfo. cbn [Element.testId]. unfold getJsxProps.
  rewrite fold_jsxAttr_testId. cbn [jp_testId].
  split; [intros [H | [H _]]; [exact H | discriminate] | intros H; now left].
Qed.

Lemma startsWith_on_not_proto (k : string) :
  startsWith k "on" = true -> k <> "__proto__".
Proof. intros H ->. discriminate. Qed.

Lemma getJsxProps_events (attrs : list node) (k h : string) :
  In (k, h) (jp_events (getJsxProps attrs)) ->
  startsWith k "on" = true
  /\ getOwn (jp_props (getJsxProps attrs)) k <> None
  /\ exists val,
       In (JSXAttribute (JSXIdentifier k) val) attrs
       /\ snd (storedValue val) = Some h.
Proof.
  induction attrs as [|a attrs IH] using rev_ind; [contradiction|].
  rewrite getJsxProps_snoc, jsxAttr_events, jsxAttr_props.
  assert (Hold :
    In (k, h) (jp_events (getJsxProps attrs)) ->
    forall key v,
      startsWith k "on" = true
      /\ getOwn (assign (jp_props (getJsxProps attrs)) key v) k <> None
      /\ exists val,
           In (JSXAttribute (JSXIdentifier k) val) (attrs ++ [a])
           /\ snd (storedValue val) = Some h).
  { intros Hin key v. destruct (IH Hin) as [Hon [Hget [val [Hval Hh]]]].
    split; [exact Hon|]. split.
    - destruct (String.eqb_spec key k) as [-> | Hne].
      + rewrite getOwn_assign_eq by now apply startsWith_on_not_proto.
        discriminate.
      + now rewrite getOwn_assign_neq.
    - exists val. split; [|exact Hh]. apply in_or_app. now left. }
  assert (Hplain :
    In (k, h) (jp_events (getJsxProps attrs)) ->
    startsWith k "on" = true
    /\ getOwn (jp_props (getJsxProps attrs)) k <> None
    /\ exists val,
         In (JSXAttribute (JSXIdentifier k) val) (attrs ++ [a])
         /\ snd (storedValue val) = Some h).
  { intros Hin. destruct (IH Hin) as [Hon [Hget [val [Hval Hh]]]].
    repeat split; try assumption.
    exists val. split; [|exact Hh]. apply in_or_app. now left. }
  destruct a; try exact Hplain.
  match goal with
  | |- context [match ?n with JSXIdentifier _ => _ | _ => _ end] =>
      destruct n; try exact Hplain
  end.
  destruct (snd (storedValue _)) as [h'|] eqn:Eh; [|intros H; now apply Hold].
  match goal with
  | |- In _ (if ?b then _ else _) -> _ => destruct b eqn:Eon
  end; [|intros H; now apply Hold].
  unfold assign at 1.
  rewrite (proj2 (String.eqb_neq _ _) (startsWith_on_not_proto _ Eon)).
  intros Hin. apply In_setOwn in Hin.
  destruct Hin as [[-> ->] | Hin]; [|now apply Hold].
  split; [exact Eon|]. split.
  - rewrite getOwn_assign_eq by now apply startsWith_on_not_proto.
    discriminate.
  - eexists. split; [|exact Eh]. apply in_or_app. right. now left.
Qed.

(** Every recorded event of an element is named by an attribute that
    starts with [on] and is bound to the recorded identifier, and its
    name is a property of the element too. *)
Theorem events_are_bound_attributes (tagName : node)
    (attributes children : list node) (k h : string) :
  In (k, h) (Element.events (elementInfo tagName attributes children)) ->
  startsWith k "on" = true
  /\ getOwn (Element.props (elementInfo tagName attributes children)) k
     <> None
  /\ exists val,
       In (JSXAttribute (JSXIdentifier k) val) attributes
       /\ snd (storedValue val) = Some h.
Proof. apply getJsxProps_events. Qed.

Lemma events_are_bound_attributes_witness :
  In ("onClick", "addTodo")
    (Element.events
       (elementInfo (JSXIdentifier "button")
          [Samples.attrExpr "onClick" (Identifier "addTodo")] []))
  /\ startsWith "onClick" "on" = true.
Proof.
  split; [now left|].
  apply (events_are_bound_attributes (JSXIdentifier "button")
           [Samples.attrExpr "onClick" (Identifier "addTodo")] []
           "onClick" "addTodo").
  now left.
Defined.

(** ** Scope and the facts of a path *)

(** A path none of whose parents is a function declaration or a
    variable declarator named like the component adds no element, no
    State Pair, no effect and no network call to the result. *)
Theorem unbound_path_contributes_nothing (c : string) (p : NodePath) :
  existsb (bindsName c) (ancestors p) = false ->
  elementsAt c p = []
  /\ statePairsAt c p = []
  /\ isEffectCall c p = false
  /\ effectDepsAt c p = []
  /\ apisAt c p = [].
Proof.
  intros H.
  assert (Hi : isInsideComponent p c = false).
  { destruct (isInsideComponent p c) eqn:E; [|reflexivity].
    apply isInsideComponent_binds in E. congruence. }
  unfold elementsAt, statePairsAt, effectDepsAt, apisAt, isEffectCall.
  rewrite Hi. repeat split; destruct (pnode p); try reflexivity.
  match goal with
  | |- context [match ?n with JSXOpeningElement _ _ => _ | _ => _ end] =>
      destruct n; reflexivity
  end.
Qed.

Lemma unbound_path_contributes_nothing_witness :
  existsb (bindsName "Todos") (ancestors markupInHelper) = false
  /\ elementsAt "Todos" markupInHelper = [].
Proof.
  split; [reflexivity|].
  apply (unbound_path_contributes_nothing "Todos" markupInHelper).
  reflexivity.
Defined.

Lemma elements_of_analysis_witness :
  analyzeAst Samples.todos = Ok Expected.todos
  /\ elements Expected.todos
     = flat_map (elementsAt (name Expected.todos)) (traverse Samples.todos).
Proof.
  split; [reflexivity|].
  apply (elements_of_analysis Samples.todos Expected.todos). reflexivity.
Defined.

Lemma propsAt_bound (c : string) (p : NodePath) :
  bindsName c (pnode p) = false -> propsAt c p = [].
Proof.
  unfold propsAt, bindsName, idName, isIdentifierNamed. intros H.
  destruct (pnode p); try reflexivity;
    repeat match type of H with
           | context [match ?x with _ => _ end] =>
               destruct x; try reflexivity
           end;
    now rewrite H.
Qed.

(** The props of a finished analysis are, in the order of the walk,
    the names read from the first parameter of every function
    declaration and of every function or arrow bound to a variable that
    is named like the component, wherever it stands; no other path
    gives a prop. *)
Theorem props_of_analysis (ast : node) (r : AnalyzedComponent) :
  analyzeAst ast = Ok r ->
  props r = flat_map (propsAt (name r)) (traverse ast)
  /\ forall p, bindsName (name r) (pnode p) = false -> propsAt (name r) p = [].
Proof.
  intros H. split.
  - rewrite (analyzeAst_name _ _ H).
    apply analyzeAst_contribute in H. destruct H as [m ->]. reflexivity.
  - intros p. apply propsAt_bound.
Qed.

Lemma props_of_analysis_witness :
  analyzeAst Samples.loader = Ok Expected.loader
  /\ props Expected.loader
     = flat_map (propsAt (name Expected.loader)) (traverse Samples.loader).
Proof.
  split; [reflexivity|].
  apply (props_of_analysis Samples.loader Expected.loader). reflexivity.
Defined.

(** A call that lies directly in a function bound to a variable other
    than the component (an arrow function or a function expression, with
    no variable declarator between the call and it) is not let pass by
    the scope filter: the name derived for the function is that of the
    variable, and the visit of the call returns the accumulators as they
    were, so that it adds no setter under that name to
    [eventToSetterMap], whatever the callee. *)
Theorem call_in_variable_bound_handler_is_skipped (c x : string)
    (p f d : NodePath) (init : option node) (acc : AnalyzedComponent) :
  isCallExpression (pnode p) = true ->
  getFunctionParent p = Some f ->
  functionDeclarationName (pnode f) = None ->
  parentPath f = Some d ->
  pnode d = VariableDeclarator (Identifier x) init ->
  findParent p (fun q => isVariableDeclarator (pnode q)) = Some d ->
  x <> c ->
  handlerName f = x
  /\ visit c p acc = Ok acc
  /\ forall acc',
       visit c p acc = Ok acc' ->
       getOwn (eventToSetterMap acc') x = getOwn (eventToSetterMap acc) x.
Proof.
  intros Hcall Hf Hn Hp Hd Hv Hx.
  destruct d as [dn rest]. simpl in Hd. subst dn.
  assert (Hout : isInsideComponent p c = false).
  { destruct (isInsideComponent p c) eqn:E; [|reflexivity].
    destruct Hx.
    apply (variable_bound_handler_is_component p f c x init rest E Hf Hn Hp).
    now rewrite Hp. }
  assert (Hvisit : visit c p acc = Ok acc).
  { unfold visit, visitCallExpression.
    destruct (pnode p); try discriminate. now rewrite Hout. }
  split; [|split].
  - unfold handlerName. now rewrite Hp.
  - exact Hvisit.
  - intros acc'. rewrite Hvisit. now intros [= <-].
Qed.

Lemma call_in_variable_bound_handler_witness :
  In setInputInAddTodo (traverse Samples.todos)
  /\ pnode setInputInAddTodo
     = CallExpression (Identifier "setInput") [StringLiteral EmptyString]
  /\ lexicallyInScope "Todos" setInputInAddTodo = true
  /\ visit "Todos" setInputInAddTodo Expected.todos = Ok Expected.todos.
Proof.
  split.
  { apply (find_some isSetInputInAddTodo (traverse Samples.todos)).
    reflexivity. }
  split; [reflexivity|]. split; [reflexivity|].
  apply (call_in_variable_bound_handler_is_skipped "Todos" "addTodo"
           setInputInAddTodo addTodoFunction addTodoDeclarator
           (declaratorInit (pnode addTodoDeclarator)) Expected.todos);
    first [reflexivity | discriminate].
Defined.

(** The condition on the declarators matters: in [Samples.shadowing] a
    declarator named like the component lies between the call of
    [setX] and the arrow function bound to [h]; the scope filter lets
    the call pass and the handler is recorded under [h]. *)
Example declarator_between_call_and_handler :
  analyzeAst Samples.shadowing = Ok Expected.shadowing
  /\ setterCalls "C" "setX" Samples.shadowing = [("h", true, true)]
  /\ eventToSetterMap Expected.shadowing = [("h", ["setX"])].
Proof. repeat split. Qed.

(** ** The handler map *)

Lemma visitEffect_keeps (callee : node) (arguments : list node)
    (acc : AnalyzedComponent) :
  states (visitEffect callee arguments acc) = states acc
  /\ eventToSetterMap (visitEffect callee arguments acc)
     = eventToSetterMap acc.
Proof.
  unfold visitEffect.
  destruct (isHookCallee callee "useEffect"); [|split; reflexivity].
  destruct (effectStatements arguments); [|split; reflexivity].
  rewrite fold_apiVisitor. split; reflexivity.
Qed.

(** What one visit does to the states and to the handler map. *)
Lemma visit_handler_map (c : string) (p : NodePath)
    (acc acc' : AnalyzedComponent) :
  visit c p acc = Ok acc' ->
  (exists more, states acc' = states acc ++ more)
  /\ (eventToSetterMap acc' = eventToSetterMap acc
      \/ exists h s,
           truthy h = true
           /\ existsb (fun st => setter st =? s) (states acc) = true
           /\ pushSetter h s (eventToSetterMap acc)
              = Ok (eventToSetterMap acc')).
Proof.
  intros H. split.
  - apply visit_collect in H. destruct H as [m ->].
    rewrite collect_eq. simpl. eauto.
  - revert H.
    unfold visit, visitJSXElement, visitCallExpression, visitSetterCall,
      visitFunctionDeclaration, visitVariableDeclarator.
    destruct (pnode p); try (intros [= <-]; now left).
    + (* FunctionDeclaration *)
      intros [= <-]. left.
      repeat match goal with
             | |- context [match ?x with _ => _ end] => destruct x
             end; reflexivity.
    + (* VariableDeclarator *)
      intros [= <-]. left.
      repeat match goal with
             | |- context [match ?x with _ => _ end] => destruct x
             end; reflexivity.
    + (* CallExpression *)
      destruct (isInsideComponent p c); simpl; [|intros [= <-]; now left].
      match goal with
      | |- context [visitEffect ?f ?a acc] =>
          destruct (visitEffect_keeps f a acc) as [Hst Hmap];
          set (acc1 := visitEffect f a acc) in *
      end.
      assert (Hsame : forall a, Ok acc1 = Ok a ->
                eventToSetterMap a = eventToSetterMap acc
                \/ exists h s,
                     truthy h = true
                     /\ existsb (fun st => setter st =? s) (states acc) = true
                     /\ pushSetter h s (eventToSetterMap acc)
                        = Ok (eventToSetterMap a)).
      { intros a [= <-]. now left. }
      match goal with
      | |- context [match ?callee with Identifier _ => _ | _ => _ end] =>
          destruct callee; try apply Hsame
      end.
      destruct (existsb _ (states acc1)) eqn:Ex; [|apply Hsame].
      destruct (getFunctionParent p) as [f|]; [|apply Hsame].
      destruct (truthy (handlerName f)) eqn:Et; [|apply Hsame].
      destruct (pushSetter _ _ _) as [m|] eqn:Ep; simpl; [|discriminate].
      intros [= <-]. right. do 2 eexists.
      rewrite Hst in Ex. rewrite Hmap in Ep.
      split; [exact Et|]. split; [exact Ex|]. exact Ep.
    + (* JSXElement *)
      destruct (isInsideComponent p c); simpl; [|intros [= <-]; now left].
      match goal with
      | |- context [match ?o with JSXOpeningElement _ _ => _ | _ => _ end] =>
          destruct o; try discriminate
      end.
      intros [= <-]. now left.
Qed.

Lemma existsb_setter (s : string) (l : list StateInfo) :
  existsb (fun st => setter st =? s) l = true ->
  exists st, In st l /\ setter st = s.
Proof.
  intros H. apply existsb_exists in H. destruct H as [st [Hin Heq]].
  exists st. split; [exact Hin | now apply String.eqb_eq].
Qed.

Lemma visit_sound (c : string) (p : NodePath) (acc acc' : AnalyzedComponent) :
  visit c p acc = Ok acc' -> HandlerMapSound acc -> HandlerMapSound acc'.
Proof.
  intros Hv [Hnd Hent].
  destruct (visit_handler_map c p acc acc' Hv) as [[more Hst] Hmap].
  assert (Hgrow : forall s,
            (exists st, In st (states acc) /\ setter st = s) ->
            exists st, In st (states acc') /\ setter st = s).
  { intros s [st [Hin Hs]]. exists st. rewrite Hst.
    split; [apply in_or_app; now left | exact Hs]. }
  unfold HandlerMapSound.
  destruct Hmap as [-> | [h [s [Ht [Hex Hpush]]]]].
  - split; [exact Hnd|]. intros h l Hin.
    destruct (Hent h l Hin) as [H1 [H2 [H3 H4]]].
    repeat split; try assumption. intros s Hs. apply Hgrow, H4, Hs.
  - apply existsb_setter in Hex.
    unfold pushSetter in Hpush.
    destruct (getOwn (eventToSetterMap acc) h) as [l0|] eqn:Eg.
    + injection Hpush as Hm. rewrite <- Hm. split.
      * now apply NoDup_setOwn.
      * intros h' l' Hin. apply In_setOwn in Hin.
        apply getOwn_In in Eg.
        destruct (Hent h l0 Eg) as [H1 [H2 [H3 H4]]].
        destruct Hin as [[-> ->] | Hin].
        -- repeat split; try assumption.
           ++ now destruct l0.
           ++ intros s' Hs'. apply in_app_or in Hs'.
              destruct Hs' as [Hs' | [<- | []]];
                [apply Hgrow, H4, Hs' | apply Hgrow, Hex].
        -- destruct (Hent h' l' Hin) as [G1 [G2 [G3 G4]]].
           repeat split; try assumption.
           intros s' Hs'. apply Hgrow, G4, Hs'.
    + destruct (inObjectPrototype h) eqn:Ei; [discriminate|].
      injection Hpush as Hm. rewrite <- Hm. split.
      * now apply NoDup_setOwn.
      * intros h' l' Hin. apply In_setOwn in Hin.
        destruct Hin as [[-> ->] | Hin].
        -- repeat split; try assumption; [discriminate|].
           intros s' [<- | []]. apply Hgrow, Hex.
        -- destruct (Hent h' l' Hin) as [G1 [G2 [G3 G4]]].
           repeat split; try assumption.
           intros s' Hs'. apply Hgrow, G4, Hs'.
Qed.

Lemma visitAll_sound (c : string) (ps : list NodePath) :
  forall acc acc',
    visitAll (visit c) ps acc = Ok acc' ->
    HandlerMapSound acc -> HandlerMapSound acc'.
Proof.
  induction ps as [|p ps IH]; intros acc acc'; simpl.
  - now intros [= <-].
  - destruct (visit c p acc) as [acc1|] eqn:Ev; simpl; [|discriminate].
    intros Hrest Hs. eapply IH; [exact Hrest|].
    eapply visit_sound; eassumption.
Qed.

(** In a finished analysis the handler map has one entry per handler
    name; no name is empty or a member of [Object.prototype]; and every
    entry is a non-empty list of setters of the recorded State Pairs. *)
Theorem handler_map_is_sound (ast : node) (r : AnalyzedComponent) :
  analyzeAst ast = Ok r -> HandlerMapSound r.
Proof.
  unfold analyzeAst. intros H.
  eapply visitAll_sound; [exact H|].
  split; [constructor | intros h l []].
Qed.

Lemma handler_map_is_sound_witness :
  analyzeAst (Samples.counter "increment") = Ok Expected.counter
  /\ NoDup (map fst (eventToSetterMap Expected.counter)).
Proof.
  split; [reflexivity|].
  apply (handler_map_is_sound (Samples.counter "increment") Expected.counter).
  reflexivity.
Defined.

(** ** Errors of the traversal *)

Lemma visit_raises (c : string) (p : NodePath) (acc : AnalyzedComponent)
    (m : string) :
  visit c p acc = Throw m ->
  safePath p = false
  /\ (m = pushIsNotAFunction
      \/ exists o ch, pnode p = JSXElement o ch
                      /\ forall n a, o <> JSXOpeningElement n a).
Proof.
  intros H.
  destruct (safePath p) eqn:Es.
  { destruct (visit_returns c p acc Es) as [a Ha]. congruence. }
  split; [reflexivity|]. revert H.
  unfold visit, visitJSXElement, visitCallExpression, visitSetterCall.
  destruct (pnode p); try discriminate.
  - (* CallExpression *)
    destruct (isInsideComponent p c); simpl; [|discriminate].
    match goal with
    | |- context [match ?callee with Identifier _ => _ | _ => _ end] =>
        destruct callee; try discriminate
    end.
    destruct (existsb _ _); [|discriminate].
    destruct (getFunctionParent p); [|discriminate].
    destruct (truthy _); [|discriminate].
    unfold pushSetter.
    destruct (getOwn _ _); simpl; [discriminate|].
    destruct (inObjectPrototype _); simpl; [|discriminate].
    intros [= <-]. now left.
  - (* JSXElement *)
    destruct (isInsideComponent p c); simpl; [|discriminate].
    match goal with
    | |- context [match ?o with JSXOpeningElement _ _ => _ | _ => _ end] =>
        destruct o; try discriminate
    end;
      intros _; right; do 2 eexists; (split; [reflexivity|]);
      intros ? ?; discriminate.
Qed.

Lemma visitAll_raises (c : string) (ps : list NodePath) (m : string) :
  forall acc,
    visitAll (visit c) ps acc = Throw m ->
    exists p acc1, In p ps /\ visit c p acc1 = Throw m.
Proof.
  induction ps as [|p ps IH]; intros acc; simpl; [discriminate|].
  destruct (visit c p acc) as [acc1|] eqn:Ev; simpl.
  - intros H. destruct (IH _ H) as [q [a [Hq Ha]]].
    exists q, a. split; [now right | exact Ha].
  - intros [= <-]. exists p, acc. split; [now left | exact Ev].
Qed.

(** When the library raises nothing: on a tree with well-formed markup
    the visitors raise nothing but the [TypeError] of the missing
    [push], and raise it only when a function around a call is named
    like a member of [Object.prototype]. *)
Lemma analyzeAst_raises (ast : node) (m : string) :
  jsxWellFormed ast = true ->
  analyzeAst ast = Throw m ->
  m = pushIsNotAFunction
  /\ exists p f,
       In p (traverse ast)
       /\ isCallExpression (pnode p) = true
       /\ getFunctionParent p = Some f
       /\ inObjectPrototype (handlerName f) = true.
Proof.
  unfold analyzeAst, jsxWellFormed. intros Hw H.
  apply visitAll_raises in H. destruct H as [p [acc [Hp Hv]]].
  rewrite forallb_forall in Hw. specialize (Hw p Hp).
  apply visit_raises in Hv. destruct Hv as [Hs [-> | [o [ch [Ho Hno]]]]].
  - split; [reflexivity|].
    unfold safePath in Hs.
    destruct (pnode p) eqn:En; try discriminate.
    + destruct (getFunctionParent p) as [f|] eqn:Ef; [|discriminate].
      exists p, f. rewrite En.
      repeat split; try assumption.
      now apply negb_false_iff in Hs.
    + rewrite Hs in Hw.
      match type of Hs with
      | match ?o with _ => _ end = _ => destruct o; discriminate
      end.
  - exfalso. rewrite Ho in Hw.
    destruct o; try discriminate. eapply Hno. reflexivity.
Qed.

(** *** With the errors of the library *)

Section BabelErrors.

Variable crawl : node -> result unit.
Variable enter : NodePath -> result unit.

Lemma babel_visitEach_raises (A : Type) (v v' : NodePath -> A -> result A)
    (ps : list NodePath) :
  (forall p acc m, v p acc = Throw m ->
                   Babel.raises crawl enter m \/ v' p acc = Throw m) ->
  (forall p acc r, v p acc = Ok r -> v' p acc = Ok r) ->
  forall acc,
    match Babel.visitEach enter v ps acc with
    | Ok r => visitAll v' ps acc = Ok r
    | Throw m => Babel.raises crawl enter m \/ visitAll v' ps acc = Throw m
    end.
Proof.
  intros Hthrow Hok.
  induction ps as [|p ps IH]; intros acc; simpl; [reflexivity|].
  destruct (enter p) as [[]|m] eqn:Ee; simpl.
  - destruct (v p acc) as [acc1|m] eqn:Ev; simpl.
    + rewrite (Hok _ _ _ Ev). simpl. apply IH.
    + destruct (Hthrow _ _ _ Ev) as [H | H]; [now left|].
      right. now rewrite H.
  - left. right. now exists p.
Qed.

Lemma babel_traverseTree_raises (A : Type)
    (v v' : NodePath -> A -> result A) (root : node) (acc : A) :
  (forall p acc m, v p acc = Throw m ->
                   Babel.raises crawl enter m \/ v' p acc = Throw m) ->
  (forall p acc r, v p acc = Ok r -> v' p acc = Ok r) ->
  match Babel.traverseTree crawl enter root v acc with
  | Ok r => visitAll v' (traverse root) acc = Ok r
  | Throw m =>
      Babel.raises crawl enter m \/ visitAll v' (traverse root) acc = Throw m
  end.
Proof.
  intros Hthrow Hok. unfold Babel.traverseTree.
  destruct (crawl root) as [[]|m] eqn:Ec; simpl.
  - now apply babel_visitEach_raises.
  - left. left. now exists root.
Qed.

Lemma visitAll_pure (A : Type) (f : A -> NodePath -> A)
    (ps : list NodePath) :
  forall acc, visitAll (fun p a => Ok (f a p)) ps acc = Ok (fold_left f ps acc).
Proof. induction ps as [|p ps IH]; intros acc; simpl; auto. Qed.

Lemma babel_traverseTree_pure (A : Type) (f : A -> NodePath -> A)
    (root : node) (acc : A) :
  match Babel.traverseTree crawl enter root (fun p a => Ok (f a p)) acc with
  | Ok r => r = fold_left f (traverse root) acc
  | Throw m => Babel.raises crawl enter m
  end.
Proof.
  pose proof (babel_traverseTree_raises A
                (fun p a => Ok (f a p)) (fun p a => Ok (f a p)) root acc)
    as H.
  destruct (Babel.traverseTree _ _ _ _ _) as [r|m].
  - rewrite visitAll_pure in H. symmetry.
    assert (E : Ok (fold_left f (traverse root) acc) = Ok r)
      by (apply H; [discriminate | auto]).
    now injection E.
  - destruct H as [H | H]; [discriminate | auto | exact H |].
    rewrite visitAll_pure in H. discriminate.
Qed.

Lemma babel_visitEffect (callee : node) (arguments : list node)
    (acc : AnalyzedComponent) :
  match Babel.visitEffect crawl enter callee arguments acc with
  | Ok r => r = visitEffect callee arguments acc
  | Throw m => Babel.raises crawl enter m
  end.
Proof.
  unfold Babel.visitEffect, visitEffect.
  destruct (isHookCallee callee "useEffect"); [|reflexivity].
  destruct (effectStatements arguments) as [statements|]; [|reflexivity].
  apply babel_traverseTree_pure.
Qed.

Lemma babel_visit (c : string) (p : NodePath) (acc : AnalyzedComponent) :
  match Babel.visit crawl enter c p acc with
  | Ok r => visit c p acc = Ok r
  | Throw m => Babel.raises crawl enter m \/ visit c p acc = Throw m
  end.
Proof.
  unfold Babel.visit, visit, Babel.visitCallExpression, visitCallExpression.
  destruct (pnode p); try reflexivity.
  - (* CallExpression *)
    destruct (negb (isInsideComponent p c)); [reflexivity|].
    match goal with
    | |- context [Babel.visitEffect crawl enter ?callee ?arguments acc] =>
        pose proof (babel_visitEffect callee arguments acc) as H;
        destruct (Babel.visitEffect crawl enter callee arguments acc)
          as [acc1|m]
    end; simpl.
    + subst acc1.
      destruct (visitSetterCall _ _ _); [reflexivity | now right].
    + now left.
  - (* JSXElement *)
    destruct (visitJSXElement c p acc); [reflexivity | now right].
Qed.

Lemma babel_findComponentName (ast : node) :
  match Babel.findComponentName crawl enter ast with
  | Ok c => c = findComponentName ast
  | Throw m => Babel.raises crawl enter m
  end.
Proof. apply babel_traverseTree_pure. Qed.

(** The analysis with the library's errors returns what the analysis
    returns, and raises what the library raises or what the analysis
    raises. *)
Lemma babel_analyzeAst (ast : node) :
  match Babel.analyzeAst crawl enter ast with
  | Ok r => analyzeAst ast = Ok r
  | Throw m => Babel.raises crawl enter m \/ analyzeAst ast = Throw m
  end.
Proof.
  unfold Babel.analyzeAst, analyzeAst.
  pose proof (babel_findComponentName ast) as Hc.
  destruct (Babel.findComponentName crawl enter ast) as [c|m]; simpl;
    [|now left].
  subst c.
  apply babel_traverseTree_raises.
  - intros p acc m H. pose proof (babel_visit (findComponentName ast) p acc).
    now rewrite H in *.
  - intros p acc r H. pose proof (babel_visit (findComponentName ast) p acc).
    now rewrite H in *.
Qed.

(** On a tree with well-formed markup, an error that comes out of the
    analysis is one that the library has raised, in its crawl of a tree
    or on reaching a path, or it is the [TypeError] of the missing
    [push], and then some call lies in a function whose derived name is
    that of a member of [Object.prototype]. *)
Theorem visitors_raise_only_for_prototype_names (ast : node) (m : string) :
  jsxWellFormed ast = true ->
  Babel.analyzeAst crawl enter ast = Throw m ->
  Babel.raises crawl enter m
  \/ (m = pushIsNotAFunction
      /\ exists p f,
           In p (traverse ast)
           /\ isCallExpression (pnode p) = true
           /\ getFunctionParent p = Some f
           /\ inObjectPrototype (handlerName f) = true).
Proof.
  intros Hw H. pose proof (babel_analyzeAst ast) as Hb. rewrite H in Hb.
  destruct Hb as [Hb | Hb]; [now left|].
  right. now apply analyzeAst_raises.
Qed.

End BabelErrors.

Lemma visitors_raise_witness :
  jsxWellFormed (Samples.counter "valueOf") = true
  /\ Babel.analyzeAst Babel.quiet Babel.quiet (Samples.counter "valueOf")
     = Throw pushIsNotAFunction
  /\ (Babel.raises Babel.quiet Babel.quiet pushIsNotAFunction
      \/ (pushIsNotAFunction = pushIsNotAFunction
          /\ exists p f,
               In p (traverse (Samples.counter "valueOf"))
               /\ isCallExpression (pnode p) = true
               /\ getFunctionParent p = Some f
               /\ inObjectPrototype (handlerName f) = true)).
Proof.
  split; [reflexivity|]. split; [reflexivity|].
  apply (visitors_raise_only_for_prototype_names Babel.quiet Babel.quiet
           (Samples.counter "valueOf") pushIsNotAFunction); reflexivity.
Defined.

(** A library that refuses the tree of the README component: the error
    is its own, and no visitor has run. *)
Example library_refuses_the_tree :
  Babel.analyzeAst Babel.refuses Babel.quiet Samples.todos
  = Throw Babel.duplicateDeclaration
  /\ Babel.analyzeAst Babel.quiet Babel.quiet Samples.todos
     = Ok Expected.todos.
Proof. split; reflexivity. Qed.

Lemma analyzeAst_returns_witness :
  forallb safePath (traverse Samples.todos) = true
  /\ exists r, analyzeAst Samples.todos = Ok r.
Proof.
  split; [reflexivity|].
  apply (analyzeAst_returns Samples.todos). reflexivity.
Defined.

(** * Properties of the earlier analyzer *)

Lemma earlier_hasField_node (n : node) : Earlier.hasField n "node" = false.
Proof. destruct n; reflexivity. Qed.

Lemma visitEffect_eq (callee : node) (arguments : list node)
    (acc : AnalyzedComponent) (p : NodePath) :
  pnode p = CallExpression callee arguments ->
  visitEffect callee arguments acc = Earlier.contribute acc [p].
Proof.
  intros Hp. destruct acc.
  unfold visitEffect, Earlier.contribute, Earlier.elementsAt,
    Earlier.statePairsAt, Earlier.effectDepsAt, Earlier.apisAt,
    Earlier.isEffectCall, effectBodyPaths.
  simpl. rewrite Hp.
  destruct (isHookCallee callee "useEffect"); [|tidy].
  destruct (effectStatements arguments);
    [rewrite fold_apiVisitor|]; unfold markEffect; tidy.
Qed.

Lemma earlier_visit_eq (p : NodePath) (acc acc' : AnalyzedComponent) :
  Earlier.visit p acc = Ok acc' -> acc' = Earlier.contribute acc [p].
Proof.
  unfold Earlier.visit, Earlier.visitJSXElement, Earlier.visitCallExpression,
    Earlier.visitSetterCall, Earlier.visitVariableDeclarator.
  destruct (pnode p) eqn:Ep.
  all: try (intros [= <-]; destruct acc;
            unfold Earlier.contribute, Earlier.elementsAt,
              Earlier.statePairsAt, Earlier.effectDepsAt, Earlier.apisAt,
              Earlier.isEffectCall;
            simpl; rewrite Ep; tidy).
  - (* VariableDeclarator *)
    destruct (useStatePair _ _); unfold pushState; tidy.
  - (* CallExpression *)
    match goal with
    | |- context [visitEffect ?f ?a acc] =>
        rewrite (visitEffect_eq f a acc p Ep)
    end.
    set (acc1 := Earlier.contribute acc [p]).
    assert (Hsame : forall a, Ok acc1 = Ok a -> a = acc1)
      by (intros a [= <-]; reflexivity).
    match goal with
    | |- context [match ?callee with Identifier _ => _ | _ => _ end] =>
        destruct callee; try apply Hsame
    end.
    destruct (existsb _ _); [|apply Hsame].
    destruct (findParent p _) as [f|]; [|apply Hsame].
    rewrite earlier_hasField_node. apply Hsame.
  - (* JSXElement *)
    match goal with
    | |- context [match ?o with JSXOpeningElement _ _ => _ | _ => _ end] =>
        destruct o; try discriminate
    end.
    intros [= <-]. destruct acc.
    unfold Earlier.contribute, Earlier.elementsAt, Earlier.statePairsAt,
      Earlier.effectDepsAt, Earlier.apisAt, Earlier.isEffectCall, pushElement.
    simpl. rewrite Ep. tidy.
Qed.

Lemma earlier_contribute_nil (acc : AnalyzedComponent) :
  Earlier.contribute acc [] = acc.
Proof. destruct acc. unfold Earlier.contribute. tidy. Qed.

Lemma earlier_contribute_app (acc : AnalyzedComponent)
    (ps qs : list NodePath) :
  Earlier.contribute (Earlier.contribute acc ps) qs
  = Earlier.contribute acc (ps ++ qs).
Proof.
  unfold Earlier.contribute. simpl.
  rewrite !flat_map_app, !existsb_app, !app_assoc, !orb_assoc.
  reflexivity.
Qed.

Lemma earlier_visitAll_eq (ps : list NodePath) :
  forall acc acc',
    visitAll Earlier.visit ps acc = Ok acc' ->
    acc' = Earlier.contribute acc ps.
Proof.
  induction ps as [|p ps IH]; intros acc acc'; simpl.
  - intros [= <-]. symmetry. apply earlier_contribute_nil.
  - destruct (Earlier.visit p acc) as [acc1|] eqn:Ev; simpl; [|discriminate].
    intros H. apply IH in H. apply earlier_visit_eq in Ev. subst.
    apply earlier_contribute_app.
Qed.

Lemma earlier_visit_raises (p : NodePath) (acc : AnalyzedComponent)
    (m : string) :
  Earlier.visit p acc = Throw m ->
  exists o ch, pnode p = JSXElement o ch
               /\ forall n a, o <> JSXOpeningElement n a.
Proof.
  unfold Earlier.visit, Earlier.visitJSXElement, Earlier.visitCallExpression,
    Earlier.visitSetterCall.
  destruct (pnode p); try discriminate.
  - (* CallExpression *)
    match goal with
    | |- context [match ?callee with Identifier _ => _ | _ => _ end] =>
        destruct callee; try discriminate
    end.
    destruct (existsb _ _); [|discriminate].
    destruct (findParent p _) as [f|]; [|discriminate].
    rewrite earlier_hasField_node. discriminate.
  - (* JSXElement *)
    match goal with
    | |- context [match ?o with JSXOpeningElement _ _ => _ | _ => _ end] =>
        destruct o; try discriminate
    end;
      intros _; do 2 eexists; (split; [reflexivity|]);
      intros ? ?; discriminate.
Qed.

(** The paths of the walk of a node of a walk are paths of that walk. *)
Lemma walk_sub (n : node) :
  forall anc p q,
    In p (walk anc n) ->
    In q (walk (ancestors p) (pnode p)) ->
    In q (walk anc n).
Proof.
  induction n as [n IH] using node_children_ind.
  intros anc p q Hp Hq.
  rewrite walk_eq in Hp. destruct Hp as [<- | Hp]; [exact Hq|].
  apply in_flat_map in Hp. destruct Hp as [ch [Hch Hp]].
  rewrite Forall_forall in IH.
  eapply in_walk_child; [exact Hch|].
  eapply IH; eassumption.
Qed.

Lemma traverse_sub (root : node) (p q : NodePath) :
  In p (traverse root) ->
  In q (walk (ancestors p) (pnode p)) ->
  In q (traverse root).
Proof.
  unfold traverse. intros Hp Hq.
  apply in_flat_map in Hp. destruct Hp as [ch [Hch Hp]].
  apply in_flat_map. exists ch. split; [exact Hch|].
  eapply walk_sub; eassumption.
Qed.

Lemma earlier_mainFunction_in (ps : list NodePath) :
  forall found f,
    fst (fold_left Earlier.exportVisitor ps found) = Some f ->
    fst found = Some f
    \/ exists p, In p ps
                 /\ In (pnode f) (childNodes (pnode p))
                 /\ ancestors f = pnode p :: ancestors p.
Proof.
  induction ps as [|p ps IH]; intros found f; simpl; [now left|].
  intros H. apply IH in H. destruct H as [H | [q [Hq H]]].
  - unfold Earlier.exportVisitor in H.
    destruct (pnode p) eqn:Ep; try (now left).
    match type of H with
    | context [if ?b then _ else _] => destruct b; [|now left]
    end.
    simpl in H. injection H as <-. right. exists p. rewrite Ep. simpl.
    repeat split; auto.
  - right. exists q. split; [now right | exact H].
Qed.

(** The earlier analyzer walks paths of the file only. *)
Lemma earlier_visited_sub (ast : node) (q : NodePath) :
  In q (Earlier.visited ast) -> In q (traverse ast).
Proof.
  unfold Earlier.visited, Earlier.mainFunction.
  destruct (fst (fold_left _ _ _)) as [f|] eqn:Ef; [|trivial].
  apply earlier_mainFunction_in in Ef.
  destruct Ef as [Ef | [p [Hp [Hch Hanc]]]]; [discriminate|].
  intros Hq. apply in_flat_map in Hq. destruct Hq as [ch [Hc Hq]].
  eapply traverse_sub; [exact Hp|].
  eapply in_walk_child; [exact Hch|].
  rewrite <- Hanc.
  eapply in_walk_child; eassumption.
Qed.

Lemma earlier_visitAll_returns (ps : list NodePath) :
  (forall p o ch, In p ps -> pnode p = JSXElement o ch ->
                  exists n a, o = JSXOpeningElement n a) ->
  forall acc, exists acc', visitAll Earlier.visit ps acc = Ok acc'.
Proof.
  induction ps as [|p ps IH]; intros Hw acc; simpl; [eauto|].
  destruct (Earlier.visit p acc) as [acc1|m] eqn:Ev; simpl.
  - apply IH. intros q o ch Hq. apply Hw. now right.
  - apply earlier_visit_raises in Ev. destruct Ev as [o [ch [Ho Hno]]].
    destruct (Hw p o ch (or_introl eq_refl) Ho) as [n [a ->]].
    exfalso. eapply Hno. reflexivity.
Qed.

(** Whenever the earlier analyzer returns, its handler map is empty,
    whatever the component: the test [node in parentFunc.node] fails
    for every node, so the setter rule never records a handler. *)
Theorem earlier_never_maps_handlers (ast : node) (r : AnalyzedComponent) :
  Earlier.analyzeAst ast = Ok r -> eventToSetterMap r = [].
Proof.
  unfold Earlier.analyzeAst. intros H.
  apply earlier_visitAll_eq in H. now subst.
Qed.

Lemma earlier_never_maps_handlers_witness :
  Earlier.analyzeAst Samples.todos
  = Ok (Earlier.contribute (initial "Anonymous") (traverse Samples.todos))
  /\ eventToSetterMap
       (Earlier.contribute (initial "Anonymous") (traverse Samples.todos))
     = [].
Proof.
  split; [reflexivity|].
  apply (earlier_never_maps_handlers Samples.todos). reflexivity.
Defined.

Lemma earlier_fold_whole_file (ps : list NodePath) :
  forallb (fun decl => negb (isFunctionDeclaration decl)) (defaultExportsOf ps)
  = true ->
  forall found, fold_left Earlier.exportVisitor ps found = found.
Proof.
  unfold defaultExportsOf.
  induction ps as [|p ps IH]; simpl; intros H found; [reflexivity|].
  rewrite forallb_app in H. apply andb_true_iff in H. destruct H as [Hp Hps].
  rewrite (IH Hps). unfold Earlier.exportVisitor.
  destruct (pnode p); try reflexivity.
  simpl in Hp. rewrite andb_true_r in Hp. apply negb_true_iff in Hp.
  now rewrite Hp.
Qed.

Lemma earlier_whole_file (ast : node) :
  Earlier.walksWholeFile ast = true ->
  Earlier.mainFunction ast = (None, "Anonymous")
  /\ Earlier.visited ast = traverse ast.
Proof.
  unfold Earlier.walksWholeFile, defaultExports. intros H.
  assert (Hm : Earlier.mainFunction ast = (None, "Anonymous"))
    by (unfold Earlier.mainFunction; now apply earlier_fold_whole_file).
  split; [exact Hm|]. unfold Earlier.visited. now rewrite Hm.
Qed.

Lemma earlier_statePairsAt_spec (p : NodePath) (st : StateInfo) :
  In st (Earlier.statePairsAt p) <->
  exists id init,
    pnode p = VariableDeclarator id init /\ StateDeclaration id init st.
Proof.
  unfold Earlier.statePairsAt. split.
  - destruct (pnode p); try contradiction.
    destruct (useStatePair _ _) eqn:E; [|contradiction].
    intros [<- | []]. apply useStatePair_spec in E. eauto.
  - intros [id [init [-> H]]].
    apply useStatePair_spec in H. rewrite H. now left.
Qed.

(** When no default export is a function declaration (a component
    exported by its name, say), the earlier analyzer names the
    component ["Anonymous"] and takes its facts from the whole file:
    every state declaration of the file gives a State Pair and every
    markup node an element record, in the order of the walk. *)
Theorem earlier_scopes_to_whole_file (ast : node) (r : AnalyzedComponent) :
  Earlier.walksWholeFile ast = true ->
  Earlier.analyzeAst ast = Ok r ->
  name r = "Anonymous"
  /\ elements r = flat_map Earlier.elementsAt (traverse ast)
  /\ states r = flat_map Earlier.statePairsAt (traverse ast)
  /\ forall p st,
       In st (Earlier.statePairsAt p) <->
       exists id init,
         pnode p = VariableDeclarator id init /\ StateDeclaration id init st.
Proof.
  intros Hw H. unfold Earlier.analyzeAst in H.
  destruct (earlier_whole_file ast Hw) as [Hm Hv]. rewrite Hm, Hv in H.
  apply earlier_visitAll_eq in H. subst r.
  repeat split; try apply earlier_statePairsAt_spec.
Qed.

Lemma earlier_scopes_to_whole_file_witness :
  Earlier.walksWholeFile Samples.todos = true
  /\ Earlier.analyzeAst Samples.todos
     = Ok (Earlier.contribute (initial "Anonymous") (traverse Samples.todos))
  /\ name (Earlier.contribute (initial "Anonymous") (traverse Samples.todos))
     = "Anonymous".
Proof.
  split; [reflexivity|]. split; [reflexivity|].
  apply (earlier_scopes_to_whole_file Samples.todos
           (Earlier.contribute (initial "Anonymous")
              (traverse Samples.todos)));
    reflexivity.
Defined.

Lemma flat_map_filter (A B : Type) (b : A -> bool) (g : A -> list B)
    (l : list A) :
  flat_map (fun x => if b x then g x else []) l = flat_map g (filter b l).
Proof.
  induction l as [|x l IH]; simpl; [reflexivity|].
  destruct (b x); simpl; now rewrite IH.
Qed.

Lemma hardened_statePairsAt (c : string) (p : NodePath) :
  statePairsAt c p
  = if isInsideComponent p c then Earlier.statePairsAt p else [].
Proof.
  unfold statePairsAt, Earlier.statePairsAt.
  destruct (pnode p), (isInsideComponent p c); reflexivity.
Qed.

Lemma hardened_effectDepsAt (c : string) (p : NodePath) :
  effectDepsAt c p
  = if isInsideComponent p c then Earlier.effectDepsAt p else [].
Proof.
  unfold effectDepsAt, Earlier.effectDepsAt, isEffectCall,
    Earlier.isEffectCall.
  destruct (pnode p), (isInsideComponent p c); reflexivity.
Qed.

Lemma hardened_apisAt (c : string) (p : NodePath) :
  apisAt c p = if isInsideComponent p c then Earlier.apisAt p else [].
Proof.
  unfold apisAt, Earlier.apisAt, isEffectCall, Earlier.isEffectCall.
  destruct (pnode p), (isInsideComponent p c); reflexivity.
Qed.

(** When no default export is a function declaration, the state pairs,
    effect dependencies and network calls of the hardened analyzer are
    those of the earlier one with the paths that the scope filter
    rejects left out, in the same order: hardening adds none. *)
Theorem hardened_filters_earlier (ast : node) (rh rv : AnalyzedComponent) :
  Earlier.walksWholeFile ast = true ->
  analyzeAst ast = Ok rh ->
  Earlier.analyzeAst ast = Ok rv ->
  states rv = flat_map Earlier.statePairsAt (traverse ast)
  /\ states rh
     = flat_map Earlier.statePairsAt
         (filter (fun p => isInsideComponent p (name rh)) (traverse ast))
  /\ effectDeps rv = flat_map Earlier.effectDepsAt (traverse ast)
  /\ effectDeps rh
     = flat_map Earlier.effectDepsAt
         (filter (fun p => isInsideComponent p (name rh)) (traverse ast))
  /\ apis rv = flat_map Earlier.apisAt (traverse ast)
  /\ apis rh
     = flat_map Earlier.apisAt
         (filter (fun p => isInsideComponent p (name rh)) (traverse ast)).
Proof.
  intros Hw Hh Hv. unfold Earlier.analyzeAst in Hv.
  destruct (earlier_whole_file ast Hw) as [Hm Hvis]. rewrite Hm, Hvis in Hv.
  apply earlier_visitAll_eq in Hv. subst rv.
  rewrite (analyzeAst_name _ _ Hh).
  apply analyzeAst_contribute in Hh. destruct Hh as [m ->]. simpl.
  rewrite <- !flat_map_filter.
  repeat split; apply flat_map_ext; intros p.
  - apply hardened_statePairsAt.
  - apply hardened_effectDepsAt.
  - apply hardened_apisAt.
Qed.

Lemma hardened_filters_earlier_witness :
  Earlier.walksWholeFile Samples.todos = true
  /\ analyzeAst Samples.todos = Ok Expected.todos
  /\ Earlier.analyzeAst Samples.todos
     = Ok (Earlier.contribute (initial "Anonymous") (traverse Samples.todos))
  /\ states Expected.todos
     = flat_map Earlier.statePairsAt
         (filter (fun p => isInsideComponent p (name Expected.todos))
            (traverse Samples.todos)).
Proof.
  split; [reflexivity|]. split; [reflexivity|]. split; [reflexivity|].
  pose proof (hardened_filters_earlier Samples.todos Expected.todos
                (Earlier.contribute (initial "Anonymous")
                   (traverse Samples.todos))
                eq_refl eq_refl eq_refl) as [_ [H _]].
  exact H.
Defined.

(** * Properties of the test generator *)

Import Generator.

Lemma special_cases (c : ascii) :
  special c = true -> c = backslash \/ c = backtick \/ c = dollar.
Proof.
  unfold special. rewrite !orb_true_iff, !Ascii.eqb_eq. tauto.
Qed.

Lemma special_not_lessThan (c : ascii) :
  special c = true -> Ascii.eqb c lessThan = false.
Proof. intros H. destruct (special_cases c H) as [-> | [-> | ->]]; reflexivity. Qed.

Lemma special_lowerAscii (c : ascii) :
  special c = true -> lowerAscii c = c.
Proof. intros H. destruct (special_cases c H) as [-> | [-> | ->]]; reflexivity. Qed.

Lemma lowerAscii_not_special (p : ascii) :
  special p = false -> special (lowerAscii p) = false.
Proof.
  destruct p as [[] [] [] [] [] [] [] []]; vm_compute; intros H;
    first [reflexivity | discriminate].
Qed.

Lemma replaceAll_escapeChars (s : string) :
  replaceAll dollar (escaped dollar)
    (replaceAll backtick (escaped backtick)
       (replaceAll backslash (escaped backslash) s))
  = escapeChars s.
Proof.
  induction s as [|c s IH]; [reflexivity|].
  cbn [replaceAll escapeChars]. unfold special.
  destruct (Ascii.eqb c backslash) eqn:E1.
  - apply Ascii.eqb_eq in E1. subst c. cbn. now rewrite IH.
  - cbn [replaceAll]. destruct (Ascii.eqb c backtick) eqn:E2.
    + apply Ascii.eqb_eq in E2. subst c. cbn. now rewrite IH.
    + cbn [replaceAll]. destruct (Ascii.eqb c dollar) eqn:E3.
      * apply Ascii.eqb_eq in E3. subst c. cbn. now rewrite IH.
      * cbn. now rewrite IH.
Qed.

Lemma escapeChars_app (s t : string) :
  escapeChars (s ++ t) = (escapeChars s ++ escapeChars t)%string.
Proof.
  induction s as [|c s IH]; [reflexivity|].
  cbn. rewrite IH. now destruct (special c).
Qed.

Lemma escapeChars_plain (s : string) : plain s = true -> escapeChars s = s.
Proof.
  induction s as [|c s IH]; [reflexivity|]. cbn.
  rewrite !andb_true_iff, !negb_true_iff. intros [[H1 _] H3].
  rewrite H1, (IH H3). reflexivity.
Qed.

Lemma startsWithIgnoreCase_escapeChars (pattern : string) :
  plain pattern = true ->
  forall s,
    startsWithIgnoreCase (escapeChars s) pattern
    = startsWithIgnoreCase s pattern.
Proof.
  induction pattern as [|p ps IH]; intros Hp s.
  - destruct (escapeChars s); destruct s; reflexivity.
  - cbn in Hp. rewrite !andb_true_iff, !negb_true_iff in Hp.
    destruct Hp as [[Hsp _] Hps].
    destruct s as [|c s]; [reflexivity|]. cbn [escapeChars].
    destruct (special c) eqn:Ec.
    + cbn [startsWithIgnoreCase].
      assert (Hne : forall x, special x = true ->
                Ascii.eqb (lowerAscii x) (lowerAscii p) = false).
      { intros x Hx. rewrite (special_lowerAscii x Hx).
        apply lowerAscii_not_special in Hsp.
        destruct (Ascii.eqb x (lowerAscii p)) eqn:E; [|reflexivity].
        apply Ascii.eqb_eq in E. congruence. }
      rewrite (Hne c Ec), (Hne backslash eq_refl). reflexivity.
    + cbn [startsWithIgnoreCase]. now rewrite (IH Hps).
Qed.

Lemma replaceCloseScript_none (s : string) :
  noCloseScript s = true ->
  replaceCloseScript None (escapeChars s) = escapeChars s.
Proof.
  induction s as [|c s IH]; [reflexivity|].
  cbn [noCloseScript escapeChars].
  rewrite andb_true_iff, negb_true_iff. intros [Hc Hs].
  destruct (special c) eqn:Ec.
  - cbn [replaceCloseScript].
    rewrite (special_not_lessThan c Ec). cbn. now rewrite (IH Hs).
  - cbn [replaceCloseScript].
    rewrite (startsWithIgnoreCase_escapeChars "/script>" eq_refl), Hc.
    now rewrite (IH Hs).
Qed.

Lemma readEscapes_escapeChars (s : string) : readEscapes (escapeChars s) = s.
Proof.
  induction s as [|c s IH]; [reflexivity|]. cbn [escapeChars].
  destruct (special c) eqn:Ec.
  - cbn. now rewrite IH.
  - cbn [readEscapes].
    assert (H : Ascii.eqb c backslash = false).
    { unfold special in Ec. rewrite !orb_false_iff in Ec. tauto. }
    rewrite H, IH. reflexivity.
Qed.

(** A text without a closing script tag is escaped so that reading the
    escapes back gives the text again: every backslash, backtick and
    dollar sign gets one backslash before it and nothing else is
    changed. *)
Theorem escapeForTs_round_trip (s : string) :
  noCloseScript s = true ->
  escapeForTs s = escapeChars s /\ readEscapes (escapeForTs s) = s.
Proof.
  intros H. unfold escapeForTs.
  rewrite replaceAll_escapeChars, (replaceCloseScript_none s H).
  split; [reflexivity | apply readEscapes_escapeChars].
Qed.

Lemma escapeForTs_round_trip_witness :
  noCloseScript "Price: $5 `now` <b>" = true
  /\ readEscapes (escapeForTs "Price: $5 `now` <b>") = "Price: $5 `now` <b>".
Proof.
  split; [reflexivity|].
  apply (escapeForTs_round_trip "Price: $5 `now` <b>"). reflexivity.
Defined.

Lemma replaceCloseScript_plain (a rest : string) :
  plain a = true ->
  replaceCloseScript None (a ++ rest)
  = (a ++ replaceCloseScript None rest)%string.
Proof.
  induction a as [|c a IH]; [reflexivity|]. cbn.
  rewrite !andb_true_iff, !negb_true_iff. intros [[_ H2] H3].
  rewrite H2. cbn. now rewrite (IH H3).
Qed.

Lemma replaceCloseScript_tag (t : string) :
  replaceCloseScript None ("</script>" ++ t)
  = ("<\/script" ++ replaceCloseScript None t)%string.
Proof. destruct t; reflexivity. Qed.

(** A closing script tag loses its [>]: after a text without special
    characters, the tag is written as [<], a backslash and [/script],
    and the escaping goes on with what follows the tag. *)
Theorem escapeForTs_drops_the_end_of_a_script_tag (a b : string) :
  plain a = true ->
  escapeForTs (a ++ "</script>" ++ b)
  = (a ++ "<\/script" ++ escapeForTs b)%string.
Proof.
  intros Ha. unfold escapeForTs.
  rewrite !replaceAll_escapeChars, !escapeChars_app.
  rewrite (escapeChars_plain a Ha), (replaceCloseScript_plain _ _ Ha).
  change (escapeChars "</script>") with "</script>".
  now rewrite replaceCloseScript_tag.
Qed.

Lemma escapeForTs_drops_witness :
  plain "x" = true
  /\ escapeForTs ("x" ++ "</script>" ++ "y")
     = ("x" ++ "<\/script" ++ "y")%string.
Proof.
  split; [reflexivity|].
  apply (escapeForTs_drops_the_end_of_a_script_tag "x" "y"). reflexivity.
Defined.

Lemma text_query_is_not_fallback (e : string) :
  ("screen.getByText(/" ++ e ++ "/i)")%string <> fallbackQuery.
Proof.
  unfold fallbackQuery. cbn. intros H.
  repeat match type of H with
         | String _ _ = String _ _ => injection H as H
         end.
  destruct e as [|c1 [|c2 [|c3 [|c4 [|c5 e]]]]]; cbn in H; discriminate.
Qed.

(** [chooseQuery] gives its fallback query, the one the generator
    filters out, exactly for an element with no role hint among button,
    textbox and link, no test id and no text (an empty one counts as
    none). *)
Theorem chooseQuery_fallback (el : Element.JSXElementInfo) :
  chooseQuery el = fallbackQuery <->
  roleIs el "button" = false
  /\ roleIs el "textbox" = false
  /\ roleIs el "link" = false
  /\ present (Element.testId el) = false
  /\ present (Element.text el) = false.
Proof.
  unfold chooseQuery. split.
  - destruct (roleIs el "button"); [cbn; discriminate|].
    destruct (roleIs el "textbox"); [cbn; discriminate|].
    destruct (roleIs el "link"); [cbn; discriminate|].
    destruct (present (Element.testId el)); [cbn; discriminate|].
    destruct (present (Element.text el)); [|tauto].
    intros H. now apply text_query_is_not_fallback in H.
  - intros [-> [-> [-> [-> ->]]]]. reflexivity.
Qed.
